(** * PyESAPI: grid sampling, dose calibration and partial-volume masks

    A shallow embedding of the numeric core of [pyesapi/__init__.py]:
    [check_arrays], [to_ndarray], [image_to_nparray], [dose_to_nparray],
    [fill_in_profiles], [make_segment_mask_for_structure],
    [make_segment_mask_for_grid], [make_dose_for_grid],
    [compute_voxel_points_matrix], [set_fluence_nparray] and
    [validate_structure_mask].

    Number model.  Physical coordinates, resolutions and mask values are
    Python/.NET doubles in the source; they are embedded as exact rationals
    ([Q], compared with [==]), so rounding is not modelled.  Array elements
    are [float]: a rational or [NaN], because the dose collaborator reports
    undefined voxels as NaN.  Python integers are [Z].  What is proved of
    the values is therefore a count, a bound, an order, a shape, or the
    expression the source evaluates; where the source and a formula differ
    by rounding, the computation is repeated over binary64 (the end points
    of the scan, module [Binary64]).

    Effects.  Every call of a profile collaborator ([GetSegmentProfile],
    [GetDoseProfile]) is logged in a trace, and Python exceptions are error
    results: a computation is a pair of the calls made so far and either an
    exception or a value. *)

From Stdlib Require Import String List ZArith QArith Bool Arith Lia.
From Corelib Require PrimFloat PrimInt63 Uint63Axioms.
Import ListNotations.

Set Implicit Arguments.

(* ------------------------------------------------------------------ *)
(** ** Values *)

(** A double: a finite value or NaN. *)
Inductive float : Type :=
| NaN : float
| Fin : Q -> float.

Definition isnan (f : float) : bool :=
  match f with NaN => true | Fin _ => false end.

Definition fadd (a b : float) : float :=
  match a, b with
  | Fin p, Fin q => Fin (p + q)
  | _, _ => NaN
  end.

Definition fmul (a b : float) : float :=
  match a, b with
  | Fin p, Fin q => Fin (p * q)
  | _, _ => NaN
  end.

Definition fsub (a b : float) : float :=
  match a, b with
  | Fin p, Fin q => Fin (p - q)
  | _, _ => NaN
  end.

(** [==] on doubles: NaN differs from everything, itself included. *)
Definition feqb (a b : float) : bool :=
  match a, b with
  | Fin p, Fin q => Qeq_bool p q
  | _, _ => false
  end.

(** Truth value of a double, as numpy and scipy read it: non-zero. *)
Definition truthy (f : float) : bool :=
  match f with
  | NaN => true
  | Fin q => negb (Qeq_bool q 0)
  end.

(** Storing a bool into a float64 array. *)
Definition float_of_bool (b : bool) : float :=
  Fin (if b then 1 else 0).

Definition float_of_Z (z : Z) : float := Fin (inject_Z z).

(** Equality of doubles up to the representation of the rational. *)
Definition float_eq (a b : float) : Prop :=
  match a, b with
  | NaN, NaN => True
  | Fin p, Fin q => p == q
  | _, _ => False
  end.

(** The Python objects that can be passed as [sub_samples]. *)
Inductive PyVal : Type :=
| PyNone : PyVal
| PyInt : Z -> PyVal
| PyBool : bool -> PyVal
| PyFloat : float -> PyVal
| PyStr : string -> PyVal.

Inductive PyType : Type := NoneType | Tint | Tbool | Tfloat | Tstr.

Definition type_of (v : PyVal) : PyType :=
  match v with
  | PyNone => NoneType
  | PyInt _ => Tint
  | PyBool _ => Tbool
  | PyFloat _ => Tfloat
  | PyStr _ => Tstr
  end.

Definition PyType_eqb (a b : PyType) : bool :=
  match a, b with
  | NoneType, NoneType | Tint, Tint | Tbool, Tbool
  | Tfloat, Tfloat | Tstr, Tstr => true
  | _, _ => false
  end.

(* ------------------------------------------------------------------ *)
(** ** Vectors ([VVector]) *)

Record VVector : Type := mkVVector { vx : Q; vy : Q; vz : Q }.

Definition op_Addition (a b : VVector) : VVector :=
  mkVVector (vx a + vx b) (vy a + vy b) (vz a + vz b).

Definition op_Multiply (k : Q) (v : VVector) : VVector :=
  mkVVector (k * vx v) (k * vy v) (k * vz v).

Definition veq (a b : VVector) : Prop :=
  vx a == vx b /\ vy a == vy b /\ vz a == vz b.

(* ------------------------------------------------------------------ *)
(** ** Exceptions and the trace of collaborator calls *)

Inductive exn : Type :=
| AssertionError : string -> exn
| Exception : string -> exn
| TypeError : exn
| ValueError : exn
| ZeroDivisionError : exn.

(** One profile query: the two end points and the length of the buffer
    the collaborator is asked to fill. *)
Record ProfileCall : Type :=
  mkCall { call_start : VVector; call_stop : VVector; call_len : nat }.

Definition M (A : Type) : Type := (list ProfileCall * (exn + A))%type.

Definition ret {A} (a : A) : M A := ([], inr a).

Definition raise {A} (e : exn) : M A := ([], inl e).

Definition bind {A B} (m : M A) (f : A -> M B) : M B :=
  match m with
  | (t, inl e) => (t, inl e)
  | (t, inr a) => let (t', r) := f a in (t ++ t', r)
  end.

Notation "x <- m ;; k" := (bind m (fun x => k))
  (at level 61, m at next level, right associativity).
Notation "m ;;; k" := (bind m (fun _ => k))
  (at level 61, right associativity).

(** [assert c, msg] *)
Definition assert (c : bool) (msg : string) : M unit :=
  if c then ret tt else raise (AssertionError msg).

(** The calls a computation made, and its outcome. *)
Definition calls {A} (m : M A) : list ProfileCall := fst m.
Definition outcome {A} (m : M A) : exn + A := snd m.

(** [for a in l: s = body a s] *)
Fixpoint for_each {A S} (l : list A) (body : A -> S -> M S) (s : S) : M S :=
  match l with
  | [] => ret s
  | a :: l' => s' <- body a s ;; for_each l' body s'
  end.

(* ------------------------------------------------------------------ *)
(** ** Dense arrays

    A numpy array of rank 3 is its shape and its items.  [item] is read
    only at indices inside the shape: every index the source uses comes
    from a [range] over the same sizes or from [np.where]. *)

Record ndarray (A : Type) : Type :=
  mk_ndarray { shape : nat * nat * nat; item : nat -> nat -> nat -> A }.

(** The element type of an array, as [a.dtype] reports it.  It is fixed
    when the array is allocated: storing into the array converts to it. *)
Inductive dtype : Type := float64 | bool_.

Class Element (A : Type) : Type := dtype_of : dtype.

#[global] Instance Element_float : Element float := float64.
#[global] Instance Element_bool : Element bool := bool_.

Definition np_dtype {A} `{Element A} (a : ndarray A) : dtype := dtype_of.

(** [np.zeros(shp)]: no [dtype] is given, so the array is float64. *)
Definition np_zeros (shp : nat * nat * nat) : ndarray float :=
  mk_ndarray shp (fun _ _ _ => Fin 0).

Definition in_shape (shp : nat * nat * nat) (x y z : nat) : bool :=
  let '(nx, ny, nz) := shp in (x <? nx) && (y <? ny) && (z <? nz).

(** [a[x, y, :] = row]: the row must have the length of the last axis, or
    length one (broadcast); numpy refuses anything else. *)
Definition setitem_column (a : ndarray float) (x y : nat) (row : list float)
  : M (ndarray float) :=
  let '(_, _, nz) := shape a in
  if length row =? nz then
    ret (mk_ndarray (shape a)
           (fun x' y' z' =>
              if (x' =? x) && (y' =? y) then nth z' row NaN else item a x' y' z'))
  else if length row =? 1 then
    ret (mk_ndarray (shape a)
           (fun x' y' z' =>
              if (x' =? x) && (y' =? y) then nth 0 row NaN else item a x' y' z'))
  else raise ValueError.

(** [a[:, :, z] = plane] where [plane] is a flat row-major buffer
    reshaped to the first two axes. *)
Definition setitem_plane (a : ndarray float) (z : nat) (plane : list float)
  : M (ndarray float) :=
  let '(nx, ny, _) := shape a in
  if length plane =? nx * ny then
    ret (mk_ndarray (shape a)
           (fun x' y' z' =>
              if z' =? z then nth (x' * ny + y') plane NaN else item a x' y' z'))
  else raise ValueError.

(** [a[x, y, z] = v] *)
Definition setitem {A} (a : ndarray A) (x y z : nat) (v : A) : ndarray A :=
  mk_ndarray (shape a)
    (fun x' y' z' =>
       if (x' =? x) && (y' =? y) && (z' =? z) then v else item a x' y' z').

(** All indices of a shape, in C order. *)
Definition indices (shp : nat * nat * nat) : list (nat * nat * nat) :=
  let '(nx, ny, nz) := shp in
  flat_map (fun x =>
    flat_map (fun y =>
      map (fun z => (x, y, z)) (seq 0 nz)) (seq 0 ny)) (seq 0 nx).

(** [np.where(a)] zipped over its three index arrays. *)
Definition np_where (a : ndarray bool) : list (nat * nat * nat) :=
  filter (fun '(x, y, z) => item a x y z) (indices (shape a)).

(** [a ^ b] on boolean arrays of one shape. *)
Definition np_xor (a b : ndarray bool) : ndarray bool :=
  mk_ndarray (shape a) (fun x y z => xorb (item a x y z) (item b x y z)).

(** [a + b] for a float array and a boolean array of one shape. *)
Definition np_add_bool (a : ndarray float) (b : ndarray bool) : ndarray float :=
  mk_ndarray (shape a)
    (fun x y z => fadd (item a x y z) (float_of_bool (item b x y z))).

(** [k * a + c], scalar [k] and [c]. *)
Definition np_affine (k : float) (a : ndarray float) (c : float) : ndarray float :=
  mk_ndarray (shape a) (fun x y z => fadd (fmul k (item a x y z)) c).

(** [a[np.where(np.isnan(a))] = 0.0] *)
Definition nan_to_zero (a : ndarray float) : ndarray float :=
  mk_ndarray (shape a)
    (fun x y z => if isnan (item a x y z) then Fin 0 else item a x y z).

(** [np.linspace(start, stop, num)], end point included. *)
Definition np_linspace (start stop : Q) (num : nat) : list Q :=
  let step := (stop - start) / inject_Z (Z.of_nat num - 1) in
  map (fun i =>
         if (1 <? num) && (i =? num - 1) then stop
         else start + inject_Z (Z.of_nat i) * step)
      (seq 0 num).

(* ------------------------------------------------------------------ *)
(** ** External collaborators *)

(** An image or dose grid as the planning system exposes it.
    [GetVoxels z x y] is the raw stored integer the collaborator writes at
    [[x, y]] of the plane buffer for slice [z]. *)
Record Grid : Type := mkGrid {
  XSize : nat; YSize : nat; ZSize : nat;
  XRes : Q; YRes : Q; ZRes : Q;
  Origin : VVector;
  XDirection : VVector; YDirection : VVector; ZDirection : VVector;
  GetVoxels : nat -> nat -> nat -> Z
}.

(** A profile collaborator: asked for a ray from [start] to [stop] and a
    buffer of [len] entries, it writes entry [i] of the buffer for every
    [i < len].  It is deterministic and does not fail. *)
Definition profile_fn (A : Type) : Type := VVector -> VVector -> nat -> nat -> A.

Record Structure : Type := mkStructure {
  HasSegment : bool;
  GetSegmentProfile : profile_fn bool
}.

Record Dose : Type := mkDose {
  dose_grid : Grid;
  VoxelToDoseValue : Z -> float;
  GetDoseProfile : profile_fn float
}.

(** Calling a profile function on a buffer of length [len]: the call is
    logged and the filled buffer is returned. *)
Definition call_profile {A} (f : profile_fn A) (start stop : VVector) (len : nat)
  : M (list A) :=
  ([mkCall start stop len], inr (map (f start stop len) (seq 0 len))).

(** [pre_buffer.CopyTo(row_buffer, 0)]: the first entries of the target are
    overwritten; a target that is too short is refused by the runtime. *)
Definition CopyTo {A} (pre_buffer row_buffer : list A) : M (list A) :=
  if length pre_buffer <=? length row_buffer then
    ret (pre_buffer ++ skipn (length pre_buffer) row_buffer)
  else raise (Exception "ArgumentException").

(** [scipy.ndimage] with its defaults: one iteration, the 6-connected cross
    as structuring element (its centre included), everything outside the
    array counted as background.  The input is read by truth value, the
    output is a boolean array of the same shape. *)
Definition voxel (a : ndarray float) (x y z : nat) : bool :=
  in_shape (shape a) x y z && truthy (item a x y z).

Definition neighbours (a : ndarray float) (x y z : nat) : list bool :=
  [ match x with O => false | S x' => voxel a x' y z end; voxel a (S x) y z;
    match y with O => false | S y' => voxel a x y' z end; voxel a x (S y) z;
    match z with O => false | S z' => voxel a x y z' end; voxel a x y (S z) ].

Definition binary_dilation (a : ndarray float) : ndarray bool :=
  mk_ndarray (shape a)
    (fun x y z => voxel a x y z || existsb (fun b => b) (neighbours a x y z)).

Definition binary_erosion (a : ndarray float) : ndarray bool :=
  mk_ndarray (shape a)
    (fun x y z => voxel a x y z && forallb (fun b => b) (neighbours a x y z)).

(* ------------------------------------------------------------------ *)
(** ** The functions of [pyesapi/__init__.py] *)

Section PyESAPI.

(** The module global [SAFE_MODE] (shipped as [False]); when set, every
    copy from a .NET array is verified. *)
Variable SAFE_MODE : bool.

(** [check_arrays(a, b)] *)
Definition check_arrays {A B} (eqb : A -> B -> bool) (a : list A) (b : list B)
  : M unit :=
  assert (length a =? length b) "Arrays are different size!" ;;;
  assert (existsb (fun '(x, y) => eqb x y) (combine a b))
         "Arrays have different values!".

(** [to_ndarray(src, dtype)].  The pinned buffer is copied byte for byte
    and read back with the element type it was written with, so the
    destination holds the elements of the source. *)
Definition to_ndarray {A} (eqb : A -> A -> bool) (src : list A) : M (list A) :=
  let dest := src in
  if SAFE_MODE then check_arrays eqb src dest ;;; ret dest else ret dest.

(** [image_to_nparray(image_like)] *)
Definition image_to_nparray (image_like : Grid) : M (ndarray float) :=
  let _shape := (XSize image_like, YSize image_like, ZSize image_like) in
  let _array := np_zeros _shape in
  for_each (seq 0 (ZSize image_like))
    (fun z _array =>
       let _buffer :=
         map (fun k => GetVoxels image_like z
                         (k / YSize image_like) (k mod YSize image_like))
             (seq 0 (XSize image_like * YSize image_like)) in
       dest <- to_ndarray Z.eqb _buffer ;;
       setitem_plane _array z (map float_of_Z dest))
    _array.

(** Python's [a / b] on floats. *)
Definition py_truediv (a b : float) : M float :=
  match a, b with
  | _, Fin q => if Qeq_bool q 0 then raise ZeroDivisionError
                else match a with Fin p => ret (Fin (p / q)) | NaN => ret NaN end
  | _, NaN => ret NaN
  end.

(** [dose_to_nparray(dose)] *)
Definition dose_to_nparray (dose : Dose) : M (ndarray float) :=
  dose_array <- image_to_nparray (dose_grid dose) ;;
  let scale := fsub (VoxelToDoseValue dose 1) (VoxelToDoseValue dose 0) in
  offset <- py_truediv (VoxelToDoseValue dose 0) scale ;;
  ret (np_affine scale dose_array offset).

(** [fill_in_profiles(dose_or_image, profile_fxn, row_buffer, dtype,
    pre_buffer)].  [dtype] is given by the equality of its elements and
    their conversion to float64 when stored.  The buffers are overwritten
    by every call, so the ones allocated by the caller are used afresh in
    each iteration. *)
Definition fill_in_profiles {A} (dose_or_image : Grid)
    (profile_fxn : profile_fn A) (row_buffer : list A)
    (eqb : A -> A -> bool) (cast : A -> float)
    (pre_buffer : option (list A)) : M (ndarray float) :=
  let mask_array :=
    np_zeros (XSize dose_or_image, YSize dose_or_image, ZSize dose_or_image) in
  let z_direction :=
    op_Multiply (inject_Z (Z.of_nat (ZSize dose_or_image) - 1) * ZRes dose_or_image)
                (ZDirection dose_or_image) in
  let y_step := op_Multiply (YRes dose_or_image) (YDirection dose_or_image) in
  for_each (seq 0 (XSize dose_or_image))
    (fun x mask_array =>
       let start_x :=
         op_Addition (Origin dose_or_image)
           (op_Multiply (inject_Z (Z.of_nat x) * XRes dose_or_image)
                        (XDirection dose_or_image)) in
       st <- for_each (seq 0 (YSize dose_or_image))
               (fun y '(mask_array, start_x) =>
                  let stop := op_Addition start_x z_direction in
                  row <- match pre_buffer with
                         | None =>
                             call_profile profile_fxn start_x stop (length row_buffer)
                         | Some pre =>
                             filled <- call_profile profile_fxn start_x stop (length pre) ;;
                             CopyTo filled row_buffer
                         end ;;
                  dest <- to_ndarray eqb row ;;
                  mask_array <- setitem_column mask_array x y (map cast dest) ;;
                  ret (mask_array, op_Addition start_x y_step))
               (mask_array, start_x) ;;
       ret (fst st))
    mask_array.

(** [make_segment_mask_for_structure(dose_or_image, structure)] *)
Definition make_segment_mask_for_structure (dose_or_image : Grid)
    (structure : Structure) : M (ndarray float) :=
  if HasSegment structure then
    let pre_buffer := repeat false (ZSize dose_or_image) in
    let row_buffer := repeat false (ZSize dose_or_image) in
    fill_in_profiles dose_or_image (GetSegmentProfile structure) row_buffer
      Bool.eqb float_of_bool (Some pre_buffer)
  else raise (Exception "structure has no segment data").

(** The body of the loop over the boundary voxels in
    [make_segment_mask_for_grid]: the value stored at [[ix, iy, iz]]. *)
Definition partial_volume (structure : Structure) (dose_or_image : Grid)
    (sub_samples : Z) (ix iy iz : nat) : M float :=
  let nsamples := (sub_samples ^ 3)%Z in
  let xRes := XRes dose_or_image in
  let yRes := YRes dose_or_image in
  let zRes := ZRes dose_or_image in
  let x := vx (Origin dose_or_image) + inject_Z (Z.of_nat ix) * xRes in
  let y := vy (Origin dose_or_image) + inject_Z (Z.of_nat iy) * yRes in
  let z := vz (Origin dose_or_image) + inject_Z (Z.of_nat iz) * zRes in
  f <- for_each (np_linspace ((-1#2) * xRes) ((1#2) * xRes) (Z.to_nat sub_samples))
         (fun xf f =>
            for_each (np_linspace ((-1#2) * yRes) ((1#2) * yRes) (Z.to_nat sub_samples))
              (fun yf f =>
                 let start := mkVVector (x + xf) (y + yf) (z - (1#2) * zRes) in
                 let stop := mkVVector (x + xf) (y + yf) (z + (1#2) * zRes) in
                 inside <- call_profile (GetSegmentProfile structure) start stop
                             (Z.to_nat sub_samples) ;;
                 ret (fold_left (fun f (b : bool) => if b then (f + 1)%Z else f)
                                inside f))
              f)
         0%Z ;;
  ret (Fin (inject_Z f / inject_Z nsamples)).

(** The loop over the boundary voxels in [make_segment_mask_for_grid]:
    starting from [np.zeros_like(mask)], it stores the partial volume of
    every voxel listed by [np.where(mask_boundary)]. *)
Definition fill_partials (structure : Structure) (dose_or_image : Grid)
    (sub_samples : Z) (mask : ndarray float) (mask_boundary : ndarray bool)
  : M (ndarray float) :=
  let boundary_idx := np_where mask_boundary in
  let mask_partials := np_zeros (shape mask) in
  for_each boundary_idx
    (fun '(ix, iy, iz) mask_partials =>
       v <- partial_volume structure dose_or_image sub_samples ix iy iz ;;
       ret (setitem mask_partials ix iy iz v))
    mask_partials.

(** [make_segment_mask_for_grid(structure, dose_or_image, sub_samples)] *)
Definition make_segment_mask_for_grid (structure : Structure)
    (dose_or_image : option Grid) (sub_samples : PyVal) : M (ndarray float) :=
  match dose_or_image with
  | None =>
      raise (AssertionError "A dose or image object is required to generate a mask.")
  | Some g =>
      mask <- make_segment_mask_for_structure g structure ;;
      match sub_samples with
      | PyNone => ret mask
      | _ =>
          assert (PyType_eqb (type_of sub_samples) Tint)
                 "sub_samples must be an integer" ;;;
          match sub_samples with
          | PyInt n =>
              assert (1 <? n)%Z "sub_samples must be > 1" ;;;
              let mask_dilated := binary_dilation mask in
              let mask_eroded := binary_erosion mask in
              let mask_boundary := np_xor mask_dilated mask_eroded in
              mask_partials <- fill_partials structure g n mask mask_boundary ;;
              ret (np_add_bool mask_partials mask_eroded)
          | _ => raise TypeError
          end
      end
  end.

(** [make_dose_for_grid(dose, image)] *)
Definition make_dose_for_grid (dose : Dose) (image : option Grid)
  : M (ndarray float) :=
  dose_array <-
    match image with
    | Some img =>
        let row_buffer := repeat (Fin 0) (ZSize img) in
        fill_in_profiles img (GetDoseProfile dose) row_buffer feqb (fun v => v) None
    | None => dose_to_nparray dose
    end ;;
  ret (nan_to_zero dose_array).

End PyESAPI.

(* ------------------------------------------------------------------ *)
(** ** Voxel positions: [compute_voxel_points_matrix]

    The functions below make no profile call; their outcome is a value or
    a failure, which is an exception of the first part or Python's
    [IndexError]. *)

Inductive failure : Type :=
| Raised : exn -> failure
| IndexError : failure.

Definition result (A : Type) : Type := (failure + A)%type.

Definition and_then {A B} (r : result A) (k : A -> result B) : result B :=
  match r with
  | inl e => inl e
  | inr a => k a
  end.

Notation "x <~ r ; k" := (and_then r (fun x => k))
  (at level 61, r at next level, right associativity).

(** [assert c] without a message. *)
Definition check (c : bool) : result unit :=
  if c then inr tt else inl (Raised (AssertionError EmptyString)).

(** A numpy array of any rank: its shape and its elements in C order. *)
Record tensor (A : Type) : Type := mk_tensor { dims : list nat; flat : list A }.

Fixpoint volume (shp : list nat) : nat :=
  match shp with
  | [] => 1
  | n :: ns => n * volume ns
  end.

(** Position of an index in the C-ordered buffer. *)
Fixpoint ravel (shp idx : list nat) : nat :=
  match shp, idx with
  | _ :: ns, i :: rest => i * volume ns + ravel ns rest
  | _, _ => 0
  end.

Fixpoint in_range (shp idx : list nat) : bool :=
  match shp, idx with
  | [], [] => true
  | n :: ns, i :: rest => (i <? n) && in_range ns rest
  | _, _ => false
  end.

Fixpoint all_indices (shp : list nat) : list (list nat) :=
  match shp with
  | [] => [[]]
  | n :: ns => flat_map (fun i => map (cons i) (all_indices ns)) (seq 0 n)
  end.

(** The array of shape [shp] whose element at [idx] is [f idx]. *)
Definition tabulate {A} (shp : list nat) (f : list nat -> A) : tensor A :=
  mk_tensor shp (map f (all_indices shp)).

(** The element at a full index inside the shape. *)
Definition tget (a : tensor Q) (idx : list nat) : Q :=
  nth (ravel (dims a) idx) (flat a) 0.

(** [np.meshgrid] of the axes with [ij] indexing: one array per axis, all of shape
    [(len(axes[0]), len(axes[1]), ...)]; the [d]-th one repeats [axes[d]]
    along axis [d]. *)
Definition np_meshgrid_ij (axes : list (list Q)) : list (tensor Q) :=
  let shp := map (@length Q) axes in
  map (fun d => tabulate shp (fun idx => nth (nth d idx O) (nth d axes []) 0))
      (seq 0 (length axes)).

(** [np.vstack] of arrays of rank 3 with equal trailing sizes: the
    concatenation along the first axis. *)
Definition np_vstack (ts : list (tensor Q)) : tensor Q :=
  mk_tensor
    (match ts with
     | [] => []
     | t :: _ => list_sum (map (fun t => hd O (dims t)) ts) :: tl (dims t)
     end)
    (concat (map (@flat Q) ts)).

(** [a.reshape(shp)] *)
Definition np_reshape (a : tensor Q) (shp : list nat) : result (tensor Q) :=
  if volume shp =? length (flat a) then inr (mk_tensor shp (flat a))
  else inl (Raised ValueError).

(** [a.T]: the axes reversed. *)
Definition np_T (a : tensor Q) : tensor Q :=
  tabulate (rev (dims a)) (fun idx => tget a (rev idx)).

(** A list with the entries at positions [i] and [j] exchanged. *)
Definition swap_entries (i j : nat) (l : list nat) : list nat :=
  map (fun k => nth (if k =? i then j else if k =? j then i else k) l O)
      (seq 0 (length l)).

(** [np.swapaxes(a, i, j)] *)
Definition np_swapaxes (a : tensor Q) (i j : nat) : tensor Q :=
  tabulate (swap_entries i j (dims a)) (fun idx => tget a (swap_entries i j idx)).

(** [a[x, y, z]] for an array of rank 4: the vector along the last axis. *)
Definition getitem3 (a : tensor Q) (x y z : nat) : result (list Q) :=
  if in_range (firstn 3 (dims a)) [x; y; z] then
    inr (map (fun d => tget a [x; y; z; d]) (seq 0 (nth 3 (dims a) O)))
  else inl IndexError.

(** [a[-1, -1, -1]] for an array of rank 4. *)
Definition getitem3_last (a : tensor Q) : result (list Q) :=
  match dims a with
  | S x :: S y :: S z :: _ => getitem3 a x y z
  | _ => inl IndexError
  end.

(** [np.all(u == v)] for two vectors of one length. *)
Definition all_equal (u v : list Q) : bool :=
  forallb (fun '(p, q) => Qeq_bool p q) (combine u v).

(** [compute_voxel_points_matrix(dose_or_image)] *)
Definition compute_voxel_points_matrix (dose_or_image : Grid) : result (tensor Q) :=
  let origin := [vx (Origin dose_or_image); vy (Origin dose_or_image);
                 vz (Origin dose_or_image)] in
  let resolution := [XRes dose_or_image; YRes dose_or_image; ZRes dose_or_image] in
  let _shape := [XSize dose_or_image; YSize dose_or_image; ZSize dose_or_image] in
  let ax :=
    map (fun dim =>
           np_linspace (nth dim origin 0)
             (nth dim origin 0
              + inject_Z (Z.of_nat (nth dim _shape O) - 1) * nth dim resolution 0)
             (nth dim _shape O))
        (seq 0 3) in
  voxel_points <~ np_reshape (np_vstack (np_meshgrid_ij ax)) (3%nat :: _shape) ;
  let voxel_points := np_T voxel_points in
  let voxel_points := np_swapaxes voxel_points 0 2 in
  first <~ getitem3 voxel_points 0 0 0 ;
  _ <~ check (all_equal origin first) ;
  last <~ getitem3_last voxel_points ;
  _ <~ check (all_equal
                (map (fun dim =>
                        nth dim origin 0
                        + inject_Z (Z.of_nat (nth dim _shape O) - 1)
                          * nth dim resolution 0)
                     (seq 0 3))
                last) ;
  inr voxel_points.

(* ------------------------------------------------------------------ *)
(** ** Fluence: [set_fluence_nparray] *)

(** A numpy or .NET array of rank 2. *)
Record matrix (A : Type) : Type :=
  mk_matrix { rows : nat; cols : nat; entry : nat -> nat -> A }.

(** [m[i, j] = v] *)
Definition set_entry {A} (m : matrix A) (i j : nat) (v : A) : matrix A :=
  mk_matrix (rows m) (cols m)
    (fun i' j' => if (i' =? i) && (j' =? j) then v else entry m i' j').

(** [Fluence(_buffer, x_origin, y_origin)] *)
Record Fluence : Type :=
  mkFluence { fluence_buffer : matrix float; XOrigin : float; YOrigin : float }.

(** A beam: the collimator angles of its control points, and the optimal
    fluence that [SetOptimalFluence] stores. *)
Record Beam : Type :=
  mkBeam { ControlPoints : list float; OptimalFluence : option Fluence }.

(** [assert c, msg] *)
Definition check_msg (c : bool) (msg : string) : result unit :=
  if c then inr tt else inl (Raised (AssertionError msg)).

(** [a / 2.0] *)
Definition fdiv2 (a : float) : float :=
  match a with
  | Fin p => Fin (p / 2)
  | NaN => NaN
  end.

(** The largest value of a [System.Single], [(2 - 2^-23) * 2^127], and the
    doubles a single can take: NaN and the values between the two extremes.
    What the runtime does with a double outside this range is not part of
    the model. *)
Definition Single_MaxValue : Q := inject_Z ((2 ^ 24 - 1) * 2 ^ 104).

Definition in_single_range (f : float) : Prop :=
  match f with
  | NaN => True
  | Fin q => - Single_MaxValue <= q /\ q <= Single_MaxValue
  end.

(** [set_fluence_nparray(beam, shaped_fluence, beamlet_size_mm)]; the value
    is the beam after [SetOptimalFluence].  [_buffer] is an array of
    [System.Single]: storing a double into it converts the double to single
    precision, which rounds it.  [to_Single] is that conversion; a stored
    entry is given as the double of equal value. *)
Definition set_fluence_nparray (to_Single : float -> float) (beam : Beam)
    (shaped_fluence : matrix float) (beamlet_size_mm : float) : result Beam :=
  _ <~ check_msg (feqb beamlet_size_mm (Fin (5 # 2)))
         "beamlet sizes of other than 2.5 mm are not implemented" ;
  _ <~ check_msg (rows shaped_fluence =? cols shaped_fluence)%nat
         "non-square fluence not implemented" ;
  first <~ match ControlPoints beam with
           | [] => inl (Raised (Exception "ArgumentOutOfRangeException"))
           | cp :: _ => inr cp
           end ;
  _ <~ check_msg (feqb first (Fin 0)) "non-zero collimator angle not implemented" ;
  let _buffer :=
    mk_matrix (rows shaped_fluence) (cols shaped_fluence) (fun _ _ => Fin 0) in
  let x_origin :=
    fdiv2 (fmul (Fin (- inject_Z (Z.of_nat (rows shaped_fluence) - 1)))
                beamlet_size_mm) in
  let y_origin :=
    fdiv2 (fmul (Fin (inject_Z (Z.of_nat (cols shaped_fluence) - 1)))
                beamlet_size_mm) in
  let _buffer :=
    fold_left
      (fun buf i =>
         fold_left
           (fun buf j => set_entry buf i j (to_Single (entry shaped_fluence i j)))
           (seq 0 (cols shaped_fluence)) buf)
      (seq 0 (rows shaped_fluence)) _buffer in
  inr (mkBeam (ControlPoints beam) (Some (mkFluence _buffer x_origin y_origin))).

(* ------------------------------------------------------------------ *)
(** ** Validation: [validate_structure_mask] *)

(** A boolean array read as numbers. *)
Definition as_float (b : ndarray bool) : ndarray float :=
  mk_ndarray (shape b) (fun x y z => float_of_bool (item b x y z)).

(** [k] further dilations of a boolean array. *)
Fixpoint dilate_more (k : nat) (b : ndarray bool) : ndarray bool :=
  match k with
  | O => b
  | S k' => dilate_more k' (binary_dilation (as_float b))
  end.

(** [binary_dilation(a, iterations=n)] for [n >= 1]: the dilation applied
    [n] times.  (For [n < 1] scipy dilates until nothing changes; a
    margin is a positive number of voxels, and its type says so.) *)
Definition binary_dilation_iterations (a : ndarray float) (iterations : positive)
  : ndarray bool :=
  dilate_more (Pos.to_nat iterations - 1) (binary_dilation a).

(** Running [f] over a list, stopping at the first failure. *)
Fixpoint collect {A B} (f : A -> result B) (l : list A) : result (list B) :=
  match l with
  | [] => inr []
  | a :: l' => b <~ f a ; bs <~ collect f l' ; inr (b :: bs)
  end.

(** The local function [tester] of [validate_structure_mask]: it reads the
    three coordinates of [pt] and asks the structure. *)
Definition tester (IsPointInsideSegment : VVector -> bool) (pt : list Q)
  : result bool :=
  match pt with
  | a :: b :: c :: _ => inr (IsPointInsideSegment (mkVVector a b c))
  | _ => inl IndexError
  end.

(** [a[idx]] for a tuple [idx] of three index arrays: numpy refuses the
    three indices when the array has fewer than three axes, whether the
    index arrays hold anything or not, and refuses an index outside the
    array. *)
Definition getitem_where (a : tensor Q) (idx : list (nat * nat * nat))
  : result (list (list Q)) :=
  if length (dims a) <? 3 then inl IndexError
  else collect (fun '(x, y, z) => getitem3 a x y z) idx.

(** [validate_structure_mask(structure, mask, pts, margin)], with the point
    test of the structure as [IsPointInsideSegment]; what it prints is left
    out. *)
Definition validate_structure_mask (IsPointInsideSegment : VVector -> bool)
    (mask : ndarray float) (pts : tensor Q) (margin : positive) : result unit :=
  let dilation_idx := np_where (binary_dilation_iterations mask margin) in
  flat_pts <~ getitem_where pts dilation_idx ;
  let flat_mask := map (fun '(x, y, z) => item mask x y z) dilation_idx in
  mismatch_count <~
    fold_left
      (fun acc '(p, m) =>
         count <~ acc ;
         inside <~ tester IsPointInsideSegment p ;
         inr (if negb (feqb m (float_of_bool inside)) then (count + 1)%Z else count))
      (combine flat_pts flat_mask) (inr 0%Z) ;
  if (length flat_mask =? 0)%nat then inl (Raised ZeroDivisionError)
  else
    let error :=
      inject_Z mismatch_count / inject_Z (Z.of_nat (length flat_mask)) * 100 in
    check_msg (Qle_bool error (5 # 100)) "Masking error greater than 0.05 %".

(* ------------------------------------------------------------------ *)
(** ** Definitions used to state the properties *)

(** The copy of a row passes verification when verification is off or
    some element of the row equals itself. *)
Definition verified {A} (SAFE_MODE : bool) (eqb : A -> A -> bool) (row : list A) : Prop :=
  SAFE_MODE = false \/ existsb (fun x => eqb x x) row = true.

(** The vector added to a start point to reach the far end of its column,
    and the step from one column to the next along y. *)
Definition z_direction (g : Grid) : VVector :=
  op_Multiply (inject_Z (Z.of_nat (ZSize g) - 1) * ZRes g) (ZDirection g).

Definition y_step (g : Grid) : VVector := op_Multiply (YRes g) (YDirection g).

(** [start_x] after [k] passes through the inner loop. *)
Fixpoint advance (p step : VVector) (k : nat) : VVector :=
  match k with
  | O => p
  | S k' => op_Addition (advance p step k') step
  end.

(** The end points the scan passes to the profile function at column
    [(x, y)], computed the way the loops compute them. *)
Definition column_start (g : Grid) (x y : nat) : VVector :=
  advance (op_Addition (Origin g)
             (op_Multiply (inject_Z (Z.of_nat x) * XRes g) (XDirection g)))
          (y_step g) y.

Definition column_stop (g : Grid) (x y : nat) : VVector :=
  op_Addition (column_start g x y) (z_direction g).

Definition column_call (g : Grid) (x y : nat) : ProfileCall :=
  mkCall (column_start g x y) (column_stop g x y) (ZSize g).

(** The calls of one scan, x outermost. *)
Definition scan_calls (g : Grid) : list ProfileCall :=
  flat_map (fun x => map (column_call g x) (seq 0 (YSize g))) (seq 0 (XSize g)).

(* ------------------------------------------------------------------ *)
(** ** The end points of the scan over any arithmetic

    [fill_in_profiles] computes the end points of its rays with the
    additions and multiplications of doubles.  The section below repeats
    that part of its loops (the lines that set [z_direction], [y_step],
    [start_x] and [stop]; the profile call and the array are left out) over
    an arbitrary number type and an arbitrary vector type.  Read over the
    rationals it gives the end points of the calls of [fill_in_profiles]
    above; read over binary64 it gives what the source computes, every
    operation rounding. *)

Section EndPoints.

Variables num vec : Type.
Variable mul : num -> num -> num.
Variable of_int : Z -> num.
Variable vec_add : vec -> vec -> vec.
Variable vec_scale : num -> vec -> vec.

(** The fields of the grid that the end points depend on. *)
Record Geometry : Type := mkGeometry {
  gXSize : nat; gYSize : nat; gZSize : nat;
  gXRes : num; gYRes : num; gZRes : num;
  gOrigin : vec;
  gXDirection : vec; gYDirection : vec; gZDirection : vec
}.

(** The pairs [(start_x, stop)] handed to the profile function, in the
    order of the calls. *)
Definition end_points (g : Geometry) : list (vec * vec) :=
  let z_direction :=
    vec_scale (mul (of_int (Z.of_nat (gZSize g) - 1)) (gZRes g)) (gZDirection g) in
  let y_step := vec_scale (gYRes g) (gYDirection g) in
  flat_map
    (fun x =>
       let start_x :=
         vec_add (gOrigin g)
           (vec_scale (mul (of_int (Z.of_nat x)) (gXRes g)) (gXDirection g)) in
       fst (fold_left
              (fun '(rays, start_x) (_ : nat) =>
                 let stop := vec_add start_x z_direction in
                 (rays ++ [(start_x, stop)], vec_add start_x y_step))
              (seq 0 (gYSize g)) ([], start_x)))
    (seq 0 (gXSize g)).

(** [p] after [k] additions of [step], one after the other. *)
Fixpoint add_repeatedly (p step : vec) (k : nat) : vec :=
  match k with
  | O => p
  | S k' => vec_add (add_repeatedly p step k') step
  end.

(** The start point of column [(x, y)] as the loops reach it: the start of
    row [x], then [y] additions of the step along y. *)
Definition accumulated_start (g : Geometry) (x y : nat) : vec :=
  add_repeatedly
    (vec_add (gOrigin g)
       (vec_scale (mul (of_int (Z.of_nat x)) (gXRes g)) (gXDirection g)))
    (vec_scale (gYRes g) (gYDirection g)) y.

(** The start point of column [(x, y)] by the formula
    [origin + x*resolution_x*direction_x + y*resolution_y*direction_y]. *)
Definition closed_form_start (g : Geometry) (x y : nat) : vec :=
  vec_add
    (vec_add (gOrigin g)
       (vec_scale (mul (of_int (Z.of_nat x)) (gXRes g)) (gXDirection g)))
    (vec_scale (mul (of_int (Z.of_nat y)) (gYRes g)) (gYDirection g)).

End EndPoints.

(** The geometry of a grid, for the end points over the rationals. *)
Definition exact_geometry (g : Grid) : Geometry Q VVector :=
  mkGeometry (XSize g) (YSize g) (ZSize g) (XRes g) (YRes g) (ZRes g)
             (Origin g) (XDirection g) (YDirection g) (ZDirection g).

(** The end points over binary64, the arithmetic of the source. *)
Module Binary64.

Definition double : Type := PrimFloat.float.

(** A [VVector] of doubles with its two operators. *)
Record VVector64 : Type := mkVVector64 { x64 : double; y64 : double; z64 : double }.

Definition op_Addition64 (a b : VVector64) : VVector64 :=
  mkVVector64 (PrimFloat.add (x64 a) (x64 b)) (PrimFloat.add (y64 a) (y64 b))
              (PrimFloat.add (z64 a) (z64 b)).

Definition op_Multiply64 (k : double) (v : VVector64) : VVector64 :=
  mkVVector64 (PrimFloat.mul k (x64 v)) (PrimFloat.mul k (y64 v))
              (PrimFloat.mul k (z64 v)).

(** The double of a Python integer (exact below [2^53]; sizes and indices
    are far smaller). *)
Definition of_int (z : Z) : double :=
  if (z <? 0)%Z then PrimFloat.opp (PrimFloat.of_uint63 (Uint63Axioms.of_Z (- z)))
  else PrimFloat.of_uint63 (Uint63Axioms.of_Z z).

Definition end_points64 (g : Geometry double VVector64)
  : list (VVector64 * VVector64) :=
  end_points PrimFloat.mul of_int op_Addition64 op_Multiply64 g.

Definition accumulated_start64 (g : Geometry double VVector64) (x y : nat)
  : VVector64 :=
  accumulated_start PrimFloat.mul of_int op_Addition64 op_Multiply64 g x y.

Definition closed_form_start64 (g : Geometry double VVector64) (x y : nat)
  : VVector64 :=
  closed_form_start PrimFloat.mul of_int op_Addition64 op_Multiply64 g x y.

(** The double nearest to [0.1]. *)
Definition tenth : double := PrimFloat.div (of_int 1) (of_int 10).

(** One row of seven columns at the origin, axis aligned, with voxels of
    [0.1] mm. *)
Definition tenth_grid : Geometry double VVector64 :=
  mkGeometry 1 7 1 tenth tenth tenth
    (mkVVector64 (of_int 0) (of_int 0) (of_int 0))
    (mkVVector64 (of_int 1) (of_int 0) (of_int 0))
    (mkVVector64 (of_int 0) (of_int 1) (of_int 0))
    (mkVVector64 (of_int 0) (of_int 0) (of_int 1)).

End Binary64.

Section ScanBody.

Variable SAFE_MODE : bool.
Context {A : Type}.
Variable g : Grid.
Variable f : profile_fn A.
Variable eqb : A -> A -> bool.
Variable cast : A -> float.
Variable row_buffer : list A.
Variable pre_buffer : option (list A).

(** What the collaborator writes for the column that starts at [p]. *)
Definition raw_row (p : VVector) : list A :=
  map (f p (op_Addition p (z_direction g)) (ZSize g)) (seq 0 (ZSize g)).

(** The body of the inner loop of [fill_in_profiles]. *)
Definition scan_body (x y : nat) (st : ndarray float * VVector)
  : M (ndarray float * VVector) :=
  let '(mask_array, start_x) := st in
  let stop := op_Addition start_x (z_direction g) in
  row <- match pre_buffer with
         | None => call_profile f start_x stop (length row_buffer)
         | Some pre =>
             filled <- call_profile f start_x stop (length pre) ;;
             CopyTo filled row_buffer
         end ;;
  dest <- to_ndarray SAFE_MODE eqb row ;;
  mask_array <- setitem_column mask_array x y (map cast dest) ;;
  ret (mask_array, op_Addition start_x (y_step g)).

Definition scan_row (x : nat) (mask_array : ndarray float) : M (ndarray float) :=
  st <- for_each (seq 0 (YSize g)) (scan_body x)
          (mask_array,
           op_Addition (Origin g)
             (op_Multiply (inject_Z (Z.of_nat x) * XRes g) (XDirection g))) ;;
  ret (fst st).

End ScanBody.

(** What a structure writes into the buffer in answer to a call. *)
Definition response (s : Structure) (c : ProfileCall) : list bool :=
  map (GetSegmentProfile s (call_start c) (call_stop c) (call_len c))
      (seq 0 (call_len c)).

(** The number of samples reported inside. *)
Definition count_true (l : list bool) : Z :=
  Z.of_nat (length (filter (fun b => b) l)).

(** The segment queries made for the voxel [(ix, iy, iz)] with
    [sub_samples] samples per axis, in the order of the two loops over the
    lateral offsets. *)
Definition sub_calls (g : Grid) (sub_samples : Z) (ix iy iz : nat)
  : list ProfileCall :=
  let x := (vx (Origin g) + inject_Z (Z.of_nat ix) * XRes g)%Q in
  let y := (vy (Origin g) + inject_Z (Z.of_nat iy) * YRes g)%Q in
  let z := (vz (Origin g) + inject_Z (Z.of_nat iz) * ZRes g)%Q in
  flat_map (fun xf =>
    map (fun yf =>
           mkCall (mkVVector (x + xf) (y + yf) (z - (1#2) * ZRes g))
                  (mkVVector (x + xf) (y + yf) (z + (1#2) * ZRes g))
                  (Z.to_nat sub_samples))
        (np_linspace ((-1#2) * YRes g) ((1#2) * YRes g) (Z.to_nat sub_samples)))
    (np_linspace ((-1#2) * XRes g) ((1#2) * XRes g) (Z.to_nat sub_samples)).


(** The value [f / nsamples] stored for a voxel. *)
Definition sub_fraction (s : Structure) (g : Grid) (sub_samples : Z)
    (ix iy iz : nat) : float :=
  Fin (inject_Z (count_true (flat_map (response s) (sub_calls g sub_samples ix iy iz)))
       / inject_Z (sub_samples ^ 3)).

Definition idx_eqb (a b : nat * nat * nat) : bool :=
  let '(x, y, z) := a in
  let '(x', y', z') := b in
  (x =? x') && (y =? y') && (z =? z').

(** The scale of the dose calibration, [dose(1) - dose(0)]. *)
Definition dose_scale (dose : Dose) : float :=
  fsub (VoxelToDoseValue dose 1) (VoxelToDoseValue dose 0).

(** A value after [a[np.where(np.isnan(a))] = 0.0]. *)
Definition scrubbed (v : float) : float := if isnan v then Fin 0 else v.

(** The conditions under which a dose extraction returns: every copy
    passes verification, and on the default path the calibration scale
    is not zero. *)
Definition extraction_returns (SAFE_MODE : bool) (dose : Dose)
    (image : option Grid) : Prop :=
  match image with
  | Some img =>
      forall x y, (x < XSize img)%nat -> (y < YSize img)%nat ->
        SAFE_MODE = false \/
        existsb (fun v => feqb v v)
          (map (GetDoseProfile dose (column_start img x y) (column_stop img x y)
                  (ZSize img))
               (seq 0 (ZSize img))) = true
  | None =>
      (SAFE_MODE = false \/
       (0 < XSize (dose_grid dose) * YSize (dose_grid dose))%nat) /\
      feqb (dose_scale dose) (Fin 0) = false
  end.

(** The three axes built by [compute_voxel_points_matrix], and the array
    it assembles from them before its two assertions. *)
Definition voxel_axes (g : Grid) : list (list Q) :=
  [ np_linspace (vx (Origin g))
      (vx (Origin g) + inject_Z (Z.of_nat (XSize g) - 1) * XRes g) (XSize g);
    np_linspace (vy (Origin g))
      (vy (Origin g) + inject_Z (Z.of_nat (YSize g) - 1) * YRes g) (YSize g);
    np_linspace (vz (Origin g))
      (vz (Origin g) + inject_Z (Z.of_nat (ZSize g) - 1) * ZRes g) (ZSize g) ].

Definition stacked_axes (g : Grid) : tensor Q :=
  mk_tensor [3%nat; XSize g; YSize g; ZSize g]
            (flat (np_vstack (np_meshgrid_ij (voxel_axes g)))).

Definition assembled_points (g : Grid) : tensor Q :=
  np_swapaxes (np_T (stacked_axes g)) 0 2.

(** The position stored for the voxel [(x, y, z)] in an array of voxel
    points. *)
Definition voxel_point (points : tensor Q) (x y z : nat) : VVector :=
  mkVVector (tget points [x; y; z; 0%nat]) (tget points [x; y; z; 1%nat])
            (tget points [x; y; z; 2%nat]).

(** The voxels [validate_structure_mask] looks at, whether the mask
    and the point test disagree at one of them, and how many such voxels
    there are. *)
Definition validation_region (mask : ndarray float) (margin : positive)
  : list (nat * nat * nat) :=
  np_where (binary_dilation_iterations mask margin).

Definition mismatch (inside : VVector -> bool) (mask : ndarray float)
    (pts : tensor Q) (idx : nat * nat * nat) : bool :=
  let '(x, y, z) := idx in
  negb (feqb (item mask x y z) (float_of_bool (inside (voxel_point pts x y z)))).

Definition mismatches (inside : VVector -> bool) (mask : ndarray float)
    (pts : tensor Q) (margin : positive) : Z :=
  Z.of_nat (length (filter (mismatch inside mask pts) (validation_region mask margin))).

(* ------------------------------------------------------------------ *)
(** ** A small grid and two structures, to run the functions on *)

(** A 2 x 2 x 2 grid of unit voxels at the origin, axis aligned; the stored
    integer of voxel [(x, y, z)] is [x + 2 y + 4 z]. *)
Definition unit_grid : Grid :=
  mkGrid 2 2 2 1 1 1 (mkVVector 0 0 0)
         (mkVVector 1 0 0) (mkVVector 0 1 0) (mkVVector 0 0 1)
         (fun z x y => Z.of_nat (x + 2 * y + 4 * z)).

(** The [i]-th of [len] evenly spaced points from [start] to [stop]. *)
Definition sample_point (start stop : VVector) (len i : nat) : VVector :=
  let t := if len <=? 1 then 0
           else inject_Z (Z.of_nat i) / inject_Z (Z.of_nat len - 1) in
  op_Addition start
    (op_Multiply t (op_Addition stop (op_Multiply (-1) start))).

(** A structure that occupies the half space [x <= 1/2]. *)
Definition half_space : Structure :=
  mkStructure true
    (fun start stop len i => Qle_bool (vx (sample_point start stop len i)) (1 # 2)).

(** A structure without segment data. *)
Definition no_segment : Structure :=
  mkStructure false (fun _ _ _ _ => false).

(** A 3 x 3 x 3 grid of unit voxels and a structure that contains every
    point. *)
Definition cube_grid : Grid :=
  mkGrid 3 3 3 1 1 1 (mkVVector 0 0 0)
         (mkVVector 1 0 0) (mkVVector 0 1 0) (mkVVector 0 0 1)
         (fun _ _ _ => 0%Z).

Definition everywhere : Structure :=
  mkStructure true (fun _ _ _ _ => true).

(** A dose on two voxels with stored integers 0 and 1, whose reference
    doses are [dose(0) = 1] and [dose(1) = 3]. *)
Definition two_voxel_dose : Dose :=
  mkDose
    (mkGrid 2 1 1 1 1 1 (mkVVector 0 0 0)
            (mkVVector 1 0 0) (mkVVector 0 1 0) (mkVVector 0 0 1)
            (fun _ x _ => Z.of_nat x))
    (fun v => Fin (1 + 2 * inject_Z v))
    (fun _ _ _ _ => Fin 0).

(** A dose whose profile is undefined (NaN) at sample 1 of the column
    that starts at [x = 1, y = 1], and 2 elsewhere. *)
Definition nan_dose : Dose :=
  mkDose unit_grid
    (fun v => Fin (inject_Z v))
    (fun start _ _ i =>
       if Qeq_bool (vx start) 1 && Qeq_bool (vy start) 1 && (i =? 1)%nat
       then NaN else Fin 2).

(** A structure with segment data that contains no point. *)
Definition nowhere : Structure :=
  mkStructure true (fun _ _ _ _ => false).

(** Whether a computation returns an array all of whose entries equal [v]. *)
Definition returns_constant (m : M (ndarray float)) (v : float) : bool :=
  match outcome m with
  | inr a => forallb (fun '(x, y, z) => feqb (item a x y z) v) (indices (shape a))
  | inl _ => false
  end.

(** A dose whose two reference values coincide. *)
Definition flat_dose : Dose :=
  mkDose unit_grid (fun _ => Fin 5) (fun _ _ _ _ => Fin 0).

(** A grid without voxels along y. *)
Definition flat_grid : Grid :=
  mkGrid 2 0 2 1 1 1 (mkVVector 0 0 0)
         (mkVVector 1 0 0) (mkVVector 0 1 0) (mkVVector 0 0 1)
         (fun _ _ _ => 0%Z).

(** A beam with one control point at collimator angle 0, and a 2 x 2
    fluence map. *)
Definition plain_beam : Beam := mkBeam [Fin 0] None.

Definition small_fluence : matrix float :=
  mk_matrix 2 2 (fun i j => Fin (inject_Z (Z.of_nat (i + 2 * j)))).

(** The conversion to single precision on doubles that a single holds
    exactly, such as the small integers of [small_fluence]: nothing
    changes. *)
Definition exact_to_Single (f : float) : float := f.

(** The point test of the half space [x <= 1/2], and the mask and the
    voxel points of [cube_grid] for it. *)
Definition in_half_space (p : VVector) : bool := Qle_bool (vx p) (1 # 2).

Definition half_mask : ndarray float :=
  mk_ndarray (3%nat, 3%nat, 3%nat) (fun x _ _ => float_of_bool (x =? 0)%nat).

Definition empty_mask : ndarray float :=
  mk_ndarray (3%nat, 3%nat, 3%nat) (fun _ _ _ => Fin 0).

(* ================================================================== *)
(** * Properties *)

Local Open Scope nat_scope.
Unset Implicit Arguments.

(** ** The monad *)

Lemma bind_ok {A B} (m : M A) (f : A -> M B) t a t' r :
  m = (t, inr a) -> f a = (t', r) -> bind m f = (t ++ t', r).
Proof. intros -> Hf. unfold bind. rewrite Hf. reflexivity. Qed.

Lemma bind_ret {A B} (a : A) (f : A -> M B) : bind (ret a) f = f a.
Proof. unfold bind, ret. destruct (f a). reflexivity. Qed.

(** ** Verification of a copy *)

Lemma existsb_combine_diag {A} (eqb : A -> A -> bool) (l : list A) :
  existsb (fun '(x, y) => eqb x y) (combine l l) = existsb (fun x => eqb x x) l.
Proof. induction l as [| a l IH]; simpl; [reflexivity | now rewrite IH]. Qed.

(** What [check_arrays] accepts: equal lengths and one position at which
    the two arrays agree. *)
Lemma check_arrays_accepts {A B} (eqb : A -> B -> bool) (a : list A) (b : list B) :
  check_arrays eqb a b = ret tt <->
  length a = length b /\
  existsb (fun '(x, y) => eqb x y) (combine a b) = true.
Proof.
  unfold check_arrays, assert.
  destruct (Nat.eqb_spec (length a) (length b)) as [Hl | Hl].
  - rewrite bind_ret.
    destruct (existsb _ (combine a b)); split; intros H;
      try (split; [assumption | reflexivity]); try reflexivity.
    + discriminate.
    + destruct H as [_ H]. discriminate.
  - split; intros H; [discriminate | tauto].
Qed.

Lemma to_ndarray_verified {A} SAFE_MODE (eqb : A -> A -> bool) (row : list A) :
  verified SAFE_MODE eqb row -> to_ndarray SAFE_MODE eqb row = ret row.
Proof.
  unfold verified, to_ndarray. intros [-> | H]; [reflexivity |].
  destruct SAFE_MODE; [| reflexivity].
  assert (Hc : check_arrays eqb row row = ret tt).
  { apply check_arrays_accepts. split; [reflexivity |].
    now rewrite existsb_combine_diag. }
  rewrite Hc. now rewrite bind_ret.
Qed.

Lemma verified_bool SAFE_MODE (row : list bool) :
  SAFE_MODE = false \/ 0 < length row -> verified SAFE_MODE Bool.eqb row.
Proof.
  intros [H | H]; [now left | right].
  destruct row as [| b row]; simpl in *; [lia |].
  now rewrite Bool.eqb_reflx.
Qed.

Lemma verified_Z SAFE_MODE (row : list Z) :
  SAFE_MODE = false \/ 0 < length row -> verified SAFE_MODE Z.eqb row.
Proof.
  intros [H | H]; [now left | right].
  destruct row as [| b row]; simpl in *; [lia |].
  now rewrite Z.eqb_refl.
Qed.

(** ** The scan of [fill_in_profiles] *)

Lemma advance_shift p step k :
  advance (op_Addition p step) step k = advance p step (S k).
Proof. induction k as [| k IH]; simpl; [reflexivity | now rewrite IH]. Qed.

Lemma nth_map_seq {A} (F : nat -> A) (n i : nat) (d : A) :
  i < n -> nth i (map F (seq 0 n)) d = F i.
Proof.
  intros Hi. rewrite nth_indep with (d' := F 0) by now rewrite length_map, length_seq.
  rewrite (map_nth F (seq 0 n) 0 i). now rewrite seq_nth.
Qed.

Lemma map_seq_S {A} (F : nat -> A) (k n : nat) :
  map F (seq (S k) n) = map (fun j => F (S j)) (seq k n).
Proof. rewrite <- seq_shift. now rewrite map_map. Qed.

Section Scan.

Variable SAFE_MODE : bool.
Context {A : Type}.
Variable g : Grid.
Variable f : profile_fn A.
Variable eqb : A -> A -> bool.
Variable cast : A -> float.
Variable row_buffer : list A.
Variable pre_buffer : option (list A).

Hypothesis row_len : length row_buffer = ZSize g.
Hypothesis pre_len : forall pre, pre_buffer = Some pre -> length pre = ZSize g.

Local Abbreviation raw_row := (raw_row g f).
Local Abbreviation scan_body := (scan_body SAFE_MODE g f eqb cast row_buffer pre_buffer).
Local Abbreviation scan_row := (scan_row SAFE_MODE g f eqb cast row_buffer pre_buffer).

Lemma fill_in_profiles_unfold :
  fill_in_profiles SAFE_MODE g f row_buffer eqb cast pre_buffer =
  for_each (seq 0 (XSize g)) scan_row
    (np_zeros (XSize g, YSize g, ZSize g)).
Proof. reflexivity. Qed.

Lemma fetch_row p :
  match pre_buffer with
  | None => call_profile f p (op_Addition p (z_direction g)) (length row_buffer)
  | Some pre =>
      filled <- call_profile f p (op_Addition p (z_direction g)) (length pre) ;;
      CopyTo filled row_buffer
  end = ([mkCall p (op_Addition p (z_direction g)) (ZSize g)], inr (raw_row p)).
Proof.
  destruct pre_buffer as [pre |] eqn:Hpre.
  - rewrite (pre_len _ eq_refl). unfold call_profile, bind, CopyTo.
    rewrite length_map, length_seq, row_len, Nat.leb_refl.
    rewrite <- row_len at 3. rewrite skipn_all. simpl.
    now rewrite app_nil_r.
  - now rewrite row_len.
Qed.

Lemma scan_body_eq x y arr p :
  shape arr = (XSize g, YSize g, ZSize g) ->
  verified SAFE_MODE eqb (raw_row p) ->
  scan_body x y (arr, p) =
  ([mkCall p (op_Addition p (z_direction g)) (ZSize g)],
   inr (mk_ndarray (shape arr)
          (fun x' y' z' =>
             if (x' =? x) && (y' =? y) then nth z' (map cast (raw_row p)) NaN
             else item arr x' y' z'),
        op_Addition p (y_step g))).
Proof.
  intros Hs Hv. unfold scan_body.
  assert (Hlen : (length (map cast (raw_row p)) =? ZSize g) = true).
  { unfold raw_row. rewrite !length_map, length_seq. apply Nat.eqb_refl. }
  erewrite bind_ok; cycle 1.
  - apply fetch_row.
  - rewrite (to_ndarray_verified _ _ _ Hv), bind_ret.
    unfold setitem_column. rewrite Hs, Hlen, bind_ret. reflexivity.
  - rewrite Hs. reflexivity.
Qed.

Lemma scan_inner x : forall n k arr p,
  shape arr = (XSize g, YSize g, ZSize g) ->
  (forall j, j < n -> verified SAFE_MODE eqb (raw_row (advance p (y_step g) j))) ->
  exists arr',
    for_each (seq k n) (scan_body x) (arr, p) =
      (map (fun j => mkCall (advance p (y_step g) j)
                       (op_Addition (advance p (y_step g) j) (z_direction g))
                       (ZSize g))
           (seq 0 n),
       inr (arr', advance p (y_step g) n)) /\
    shape arr' = (XSize g, YSize g, ZSize g) /\
    (forall y' z', k <= y' < k + n ->
       item arr' x y' z' =
       nth z' (map cast (raw_row (advance p (y_step g) (y' - k)))) NaN) /\
    (forall x' y' z', x' <> x \/ y' < k \/ k + n <= y' ->
       item arr' x' y' z' = item arr x' y' z').
Proof.
  induction n as [| n IH]; intros k arr p Hs Hv.
  - exists arr. simpl. repeat split; try assumption; intros; lia.
  - pose proof (scan_body_eq x k arr p Hs (Hv 0 ltac:(lia))) as Hb. simpl in Hb.
    set (arr1 := mk_ndarray (shape arr)
          (fun x' y' z' =>
             if (x' =? x) && (y' =? k) then nth z' (map cast (raw_row p)) NaN
             else item arr x' y' z')) in *.
    destruct (IH (S k) arr1 (op_Addition p (y_step g)) Hs) as (arr' & Hf & Hs' & Ha & Hb').
    { intros j Hj. rewrite advance_shift. apply Hv. lia. }
    exists arr'. split; [| split; [assumption | split]].
    + cbn [seq for_each].
      erewrite bind_ok; [ | exact Hb | exact Hf ].
      rewrite advance_shift. cbn [seq map app advance]. f_equal. f_equal.
      rewrite map_seq_S. apply map_ext. intros j. now rewrite advance_shift.
    + intros y' z' Hy.
      destruct (Nat.eq_dec y' k) as [-> | Hne].
      * rewrite Hb' by lia. unfold arr1; cbn [item].
        rewrite !Nat.eqb_refl. cbn [andb]. now rewrite Nat.sub_diag.
      * rewrite Ha by lia. rewrite advance_shift.
        replace (y' - k) with (S (y' - S k)) by lia. reflexivity.
    + intros x' y' z' H. rewrite Hb' by lia. unfold arr1; cbn [item].
      destruct (Nat.eqb_spec x' x); destruct (Nat.eqb_spec y' k);
        cbn [andb]; try reflexivity; lia.
Qed.

Lemma scan_outer : forall n k arr,
  shape arr = (XSize g, YSize g, ZSize g) ->
  (forall x y, k <= x < k + n -> y < YSize g ->
     verified SAFE_MODE eqb (raw_row (column_start g x y))) ->
  exists arr',
    for_each (seq k n) scan_row arr =
      (flat_map (fun x => map (column_call g x) (seq 0 (YSize g))) (seq k n),
       inr arr') /\
    shape arr' = (XSize g, YSize g, ZSize g) /\
    (forall x' y' z', k <= x' < k + n -> y' < YSize g ->
       item arr' x' y' z' =
       nth z' (map cast (raw_row (column_start g x' y'))) NaN) /\
    (forall x' y' z', x' < k \/ k + n <= x' ->
       item arr' x' y' z' = item arr x' y' z').
Proof.
  induction n as [| n IH]; intros k arr Hs Hv.
  - exists arr. simpl. repeat split; try assumption; intros; lia.
  - destruct (scan_inner k (YSize g) 0 arr
                (op_Addition (Origin g)
                   (op_Multiply (inject_Z (Z.of_nat k) * XRes g) (XDirection g))) Hs)
      as (arr1 & Hf1 & Hs1 & Ha1 & Hb1).
    { intros j Hj. apply (Hv k j); lia. }
    destruct (IH (S k) arr1 Hs1) as (arr' & Hf & Hs' & Ha & Hb).
    { intros x y Hx Hy. apply Hv; lia. }
    exists arr'. split; [| split; [assumption | split]].
    + cbn [seq for_each flat_map]. unfold scan_row at 1.
      erewrite bind_ok; [ | | exact Hf ].
      2:{ erewrite bind_ok; [ | exact Hf1 | reflexivity ]. cbn [fst]. reflexivity. }
      now rewrite app_nil_r.
    + intros x' y' z' Hx Hy.
      destruct (Nat.eq_dec x' k) as [-> | Hne].
      * rewrite Hb by lia. rewrite Ha1 by lia. now rewrite Nat.sub_0_r.
      * apply Ha; lia.
    + intros x' y' z' H. rewrite Hb by lia. apply Hb1. lia.
Qed.

(** The scan makes one call per column, in order, and stores at
    [[x, y, z]] the converted [z]-th sample of the column [(x, y)]. *)
Lemma fill_in_profiles_spec :
  (forall x y, x < XSize g -> y < YSize g ->
     verified SAFE_MODE eqb (raw_row (column_start g x y))) ->
  exists arr,
    fill_in_profiles SAFE_MODE g f row_buffer eqb cast pre_buffer =
      (scan_calls g, inr arr) /\
    shape arr = (XSize g, YSize g, ZSize g) /\
    (forall x y z, x < XSize g -> y < YSize g -> z < ZSize g ->
       item arr x y z =
       cast (f (column_start g x y) (column_stop g x y) (ZSize g) z)).
Proof.
  intros Hv. rewrite fill_in_profiles_unfold.
  destruct (scan_outer (XSize g) 0 (np_zeros (XSize g, YSize g, ZSize g)) eq_refl)
    as (arr & Hf & Hs & Ha & _).
  { intros x y Hx Hy. apply Hv; lia. }
  exists arr. split; [exact Hf | split; [exact Hs |]].
  intros x y z Hx Hy Hz. rewrite Ha by lia.
  unfold raw_row. rewrite map_map. now rewrite nth_map_seq.
Qed.

End Scan.

(** ** Geometry of the scan *)

Lemma inject_Z_of_nat_S (k : nat) :
  (inject_Z (Z.of_nat (S k)) == inject_Z (Z.of_nat k) + 1)%Q.
Proof. rewrite Nat2Z.inj_succ. unfold Z.succ. now rewrite inject_Z_plus. Qed.

Lemma advance_closed p step k :
  veq (advance p step k)
      (op_Addition p (op_Multiply (inject_Z (Z.of_nat k)) step)).
Proof.
  induction k as [| k (Hx & Hy & Hz)].
  - unfold veq; simpl; repeat split; ring.
  - unfold veq in *. cbn [advance op_Addition op_Multiply vx vy vz] in *.
    rewrite Hx, Hy, Hz, inject_Z_of_nat_S. repeat split; ring.
Qed.

(** Over the rationals, where no addition rounds, the start point of a
    column is the affine image of its indices. *)
Lemma column_start_closed g x y :
  veq (column_start g x y)
      (op_Addition
         (op_Addition (Origin g)
            (op_Multiply (inject_Z (Z.of_nat x) * XRes g) (XDirection g)))
         (op_Multiply (inject_Z (Z.of_nat y) * YRes g) (YDirection g))).
Proof.
  unfold column_start.
  destruct (advance_closed
              (op_Addition (Origin g)
                 (op_Multiply (inject_Z (Z.of_nat x) * XRes g) (XDirection g)))
              (y_step g) y) as (Hx & Hy & Hz).
  unfold veq, y_step in *. cbn [op_Addition op_Multiply vx vy vz] in *.
  rewrite Hx, Hy, Hz. repeat split; ring.
Qed.

Lemma nth_error_blocks {A} (F : nat -> nat -> A) (Y y : nat) :
  y < Y ->
  forall X k x, x < X ->
    nth_error (flat_map (fun i => map (F i) (seq 0 Y)) (seq k X)) (x * Y + y)
    = Some (F (k + x) y).
Proof.
  intros Hy. induction X as [| X IH]; intros k x Hx; [lia |].
  cbn [seq flat_map]. destruct x as [| x].
  - rewrite nth_error_app1 by (rewrite length_map, length_seq; simpl; lia).
    simpl. rewrite nth_error_map, nth_error_seq.
    destruct (Nat.ltb_spec y Y); [| lia]. simpl. now rewrite Nat.add_0_r.
  - rewrite nth_error_app2 by (rewrite length_map, length_seq; simpl; lia).
    rewrite length_map, length_seq.
    replace (S x * Y + y - Y) with (x * Y + y) by (simpl; lia).
    rewrite IH by lia. f_equal. f_equal. lia.
Qed.

Lemma scan_calls_nth g x y :
  x < XSize g -> y < YSize g ->
  nth_error (scan_calls g) (x * YSize g + y) = Some (column_call g x y).
Proof.
  intros Hx Hy. unfold scan_calls.
  now rewrite (nth_error_blocks (column_call g) (YSize g) y Hy (XSize g) 0 x Hx).
Qed.

Lemma scan_calls_length g : length (scan_calls g) = XSize g * YSize g.
Proof.
  unfold scan_calls.
  assert (H : forall X k,
             length (flat_map (fun x => map (column_call g x) (seq 0 (YSize g)))
                       (seq k X)) = X * YSize g).
  { induction X as [| X IH]; intros k; [reflexivity |].
    cbn [seq flat_map]. rewrite length_app, length_map, length_seq, IH. simpl. lia. }
  apply H.
Qed.

(** ** The binary mask *)

(** The scan behind the binary mask. *)
Lemma binary_mask_scan (SAFE_MODE : bool) (g : Grid) (s : Structure) :
  HasSegment s = true ->
  SAFE_MODE = false \/ 0 < ZSize g ->
  exists mask,
    make_segment_mask_for_structure SAFE_MODE g s = (scan_calls g, inr mask) /\
    shape mask = (XSize g, YSize g, ZSize g) /\
    forall x y z, x < XSize g -> y < YSize g -> z < ZSize g ->
      item mask x y z =
      float_of_bool
        (GetSegmentProfile s (column_start g x y) (column_stop g x y) (ZSize g) z).
Proof.
  intros Hseg Hsafe. unfold make_segment_mask_for_structure. rewrite Hseg.
  apply fill_in_profiles_spec.
  - apply repeat_length.
  - intros pre H. inversion H. apply repeat_length.
  - intros x y _ _. apply verified_bool.
    unfold raw_row. now rewrite length_map, length_seq.
Qed.

Lemma no_segment_data (SAFE_MODE : bool) (g : Grid) (s : Structure) :
  HasSegment s = false ->
  make_segment_mask_for_structure SAFE_MODE g s =
    ([], inl (Exception "structure has no segment data")).
Proof. intros H. unfold make_segment_mask_for_structure. now rewrite H. Qed.

(** C7: the array [make_segment_mask_for_structure] returns is not a
    boolean array.  For a structure with segment data it returns, after
    exactly the calls of one scan, an array of shape [(XSize, YSize, ZSize)]
    whose element type is float64: the entry at [[x, y, z]] is the double
    1.0 when the segment profile of column [(x, y)] reported sample [z]
    inside and the double 0.0 when it reported it outside.  For a structure
    without segment data it raises the exception "structure has no segment
    data", returns no array and makes no call. *)
Theorem make_segment_mask_for_structure_returns_float64
    (SAFE_MODE : bool) (g : Grid) (s : Structure) :
  SAFE_MODE = false \/ 0 < ZSize g ->
  if HasSegment s then
    exists mask,
      make_segment_mask_for_structure SAFE_MODE g s = (scan_calls g, inr mask) /\
      np_dtype mask = float64 /\
      shape mask = (XSize g, YSize g, ZSize g) /\
      forall x y z, x < XSize g -> y < YSize g -> z < ZSize g ->
        item mask x y z =
        if GetSegmentProfile s (column_start g x y) (column_stop g x y) (ZSize g) z
        then Fin 1 else Fin 0
  else
    make_segment_mask_for_structure SAFE_MODE g s =
      ([], inl (Exception "structure has no segment data")).
Proof.
  intros Hsafe. destruct (HasSegment s) eqn:Hseg.
  - destruct (binary_mask_scan SAFE_MODE g s Hseg Hsafe) as (mask & Hm & Hs & Hi).
    exists mask. repeat split; try assumption.
    intros x y z Hx Hy Hz. rewrite (Hi x y z Hx Hy Hz).
    now destruct (GetSegmentProfile s _ _ _ _).
  - now apply no_segment_data.
Qed.

(** On the 2 x 2 x 2 unit grid with the half space [x <= 1/2]: a float64
    array holding 1.0 at [x = 0] and 0.0 at [x = 1]. *)
Lemma make_segment_mask_for_structure_returns_float64_witness :
  (exists mask,
     make_segment_mask_for_structure true unit_grid half_space =
       (scan_calls unit_grid, inr mask) /\
     np_dtype mask = float64 /\ np_dtype mask <> bool_ /\
     shape mask = (2, 2, 2) /\
     item mask 0 1 1 = Fin 1 /\ item mask 1 0 1 = Fin 0) /\
  make_segment_mask_for_structure true unit_grid no_segment =
    ([], inl (Exception "structure has no segment data")).
Proof.
  split.
  - destruct (make_segment_mask_for_structure_returns_float64
                true unit_grid half_space) as (mask & Hm & Hd & Hs & Hi).
    + right. simpl. lia.
    + exists mask. split; [exact Hm |]. split; [exact Hd |].
      split; [rewrite Hd; discriminate |]. split; [exact Hs |].
      split; [rewrite (Hi 0 1 1) | rewrite (Hi 1 0 1)];
        try (simpl; lia); reflexivity.
  - apply (make_segment_mask_for_structure_returns_float64
             true unit_grid no_segment).
    right. simpl. lia.
Defined.

(** ** Ray end points *)

Section EndPointsFacts.

Variables num vec : Type.
Variable mul : num -> num -> num.
Variable of_int : Z -> num.
Variable vec_add : vec -> vec -> vec.
Variable vec_scale : num -> vec -> vec.

Lemma add_repeatedly_shift (p step : vec) (k : nat) :
  add_repeatedly vec_add (vec_add p step) step k
  = add_repeatedly vec_add p step (S k).
Proof. induction k as [| k IH]; simpl; [reflexivity | now rewrite IH]. Qed.

(** The inner loop: one pair per column, each start one step further. *)
Lemma end_points_row (step zdir : vec) (n : nat) :
  forall (k : nat) (rays : list (vec * vec)) (p : vec),
    fold_left
      (fun '(rays, start_x) (_ : nat) =>
         (rays ++ [(start_x, vec_add start_x zdir)], vec_add start_x step))
      (seq k n) (rays, p)
    = (rays ++ map (fun y => (add_repeatedly vec_add p step y,
                              vec_add (add_repeatedly vec_add p step y) zdir))
                   (seq 0 n),
       add_repeatedly vec_add p step n).
Proof.
  induction n as [| n IH]; intros k rays p.
  - simpl. now rewrite app_nil_r.
  - cbn [seq fold_left]. rewrite IH. cbn [map]. rewrite map_seq_S.
    rewrite <- app_assoc. cbn [app add_repeatedly].
    rewrite add_repeatedly_shift. f_equal. f_equal. f_equal.
    apply map_ext. intros y. now rewrite add_repeatedly_shift.
Qed.

(** The pair computed for column [(x, y)] is the one at position
    [x * YSize + y]; its start is the accumulated one. *)
Lemma end_points_nth (g : Geometry num vec) (x y : nat) :
  x < gXSize g -> y < gYSize g ->
  nth_error (end_points mul of_int vec_add vec_scale g) (x * gYSize g + y)
  = Some (accumulated_start mul of_int vec_add vec_scale g x y,
          vec_add (accumulated_start mul of_int vec_add vec_scale g x y)
            (vec_scale (mul (of_int (Z.of_nat (gZSize g) - 1)) (gZRes g))
               (gZDirection g))).
Proof.
  intros Hx Hy. unfold end_points.
  erewrite flat_map_ext.
  2:{ intros a. rewrite end_points_row. cbn [fst app]. reflexivity. }
  exact (nth_error_blocks
           (fun x y =>
              (accumulated_start mul of_int vec_add vec_scale g x y,
               vec_add (accumulated_start mul of_int vec_add vec_scale g x y)
                 (vec_scale (mul (of_int (Z.of_nat (gZSize g) - 1)) (gZRes g))
                    (gZDirection g))))
           (gYSize g) y Hy (gXSize g) 0 x Hx).
Qed.

End EndPointsFacts.

(** Over the rationals the accumulated start is the start of the call for
    the column, and the end points are those of the calls of the scan. *)
Lemma accumulated_start_exact (g : Grid) (x y : nat) :
  accumulated_start Qmult inject_Z op_Addition op_Multiply (exact_geometry g) x y
  = column_start g x y.
Proof.
  unfold accumulated_start, column_start, y_step, exact_geometry.
  cbn [gOrigin gXRes gXDirection gYRes gYDirection].
  induction y as [| y IH]; [reflexivity |].
  cbn [add_repeatedly advance]. now rewrite IH.
Qed.

Lemma end_points_exact (g : Grid) (x y : nat) :
  x < XSize g -> y < YSize g ->
  nth_error (end_points Qmult inject_Z op_Addition op_Multiply (exact_geometry g))
            (x * YSize g + y)
  = Some (column_start g x y, column_stop g x y).
Proof.
  intros Hx Hy.
  pose proof (end_points_nth Q VVector Qmult inject_Z op_Addition op_Multiply
                (exact_geometry g) x y Hx Hy) as H.
  cbn [exact_geometry gYSize] in H. rewrite H.
  rewrite accumulated_start_exact. reflexivity.
Qed.

(** C5: in every scan, the call made for the column [(x_index, y_index)]
    is the one at position [x_index * YSize + y_index].  Its start point is
    what the loops accumulate: [Origin + (x_index*XRes)*XDirection], to
    which the step [YRes*YDirection] is added [y_index] times, one addition
    after the other; its stop point is that start plus
    [((ZSize - 1)*ZRes)*ZDirection].  The two end points are the pair that
    [end_points] computes for the column, so that the same holds of the
    scan over binary64.  When the z direction is the z axis, the column
    [(0, 0)], for which nothing is accumulated, starts at the origin and
    stops at the origin moved by [(ZSize - 1)*ZRes] along z only. *)
Theorem fill_in_profiles_ray_endpoints
    (SAFE_MODE : bool) (A : Type) (g : Grid) (f : profile_fn A)
    (eqb : A -> A -> bool) (cast : A -> float)
    (row_buffer : list A) (pre_buffer : option (list A)) (x_index y_index : nat) :
  length row_buffer = ZSize g ->
  (forall pre, pre_buffer = Some pre -> length pre = ZSize g) ->
  (forall x y, x < XSize g -> y < YSize g ->
     verified SAFE_MODE eqb (raw_row g f (column_start g x y))) ->
  x_index < XSize g -> y_index < YSize g ->
  exists c,
    nth_error
      (calls (fill_in_profiles SAFE_MODE g f row_buffer eqb cast pre_buffer))
      (x_index * YSize g + y_index) = Some c /\
    call_start c =
      advance
        (op_Addition (Origin g)
           (op_Multiply (inject_Z (Z.of_nat x_index) * XRes g) (XDirection g)))
        (op_Multiply (YRes g) (YDirection g)) y_index /\
    call_stop c =
      op_Addition (call_start c)
        (op_Multiply (inject_Z (Z.of_nat (ZSize g) - 1) * ZRes g) (ZDirection g)) /\
    nth_error (end_points Qmult inject_Z op_Addition op_Multiply (exact_geometry g))
              (x_index * YSize g + y_index)
    = Some (call_start c, call_stop c) /\
    (x_index = 0 -> y_index = 0 -> veq (ZDirection g) (mkVVector 0 0 1) ->
     veq (call_start c) (Origin g) /\
     veq (call_stop c)
         (mkVVector (vx (Origin g)) (vy (Origin g))
            (vz (Origin g) + inject_Z (Z.of_nat (ZSize g) - 1) * ZRes g))).
Proof.
  intros Hrow Hpre Hv Hx Hy.
  destruct (fill_in_profiles_spec SAFE_MODE g f eqb cast row_buffer pre_buffer
              Hrow Hpre Hv) as (arr & Hf & _).
  exists (column_call g x_index y_index). rewrite Hf. unfold calls; cbn [fst].
  split; [now apply scan_calls_nth |].
  cbn [column_call call_start call_stop].
  split; [reflexivity |].
  split; [reflexivity |].
  split; [now apply end_points_exact |].
  intros -> -> (Hdx & Hdy & Hdz).
  unfold veq, column_stop, column_start, z_direction in *.
  cbn [advance op_Addition op_Multiply vx vy vz Z.of_nat inject_Z] in *.
  rewrite Hdx, Hdy, Hdz.
  repeat split; ring.
Qed.

(** Column [(1, 2)] of the 3 x 3 x 3 grid, reached by two additions of the
    step, and column [(0, 0)] of the 2 x 2 x 2 grid. *)
Lemma fill_in_profiles_ray_endpoints_witness :
  (exists c,
     nth_error
       (calls (fill_in_profiles false cube_grid (GetSegmentProfile half_space)
                 (repeat false 3) Bool.eqb float_of_bool (Some (repeat false 3))))
       (1 * YSize cube_grid + 2) = Some c /\
     call_start c =
       op_Addition
         (op_Addition
            (op_Addition (Origin cube_grid)
               (op_Multiply (inject_Z 1 * XRes cube_grid) (XDirection cube_grid)))
            (op_Multiply (YRes cube_grid) (YDirection cube_grid)))
         (op_Multiply (YRes cube_grid) (YDirection cube_grid)) /\
     call_stop c =
       op_Addition (call_start c)
         (op_Multiply (inject_Z 2 * ZRes cube_grid) (ZDirection cube_grid))) /\
  (exists c,
     nth_error
       (calls (fill_in_profiles false unit_grid (GetSegmentProfile half_space)
                 (repeat false 2) Bool.eqb float_of_bool (Some (repeat false 2))))
       0 = Some c /\
     veq (call_start c) (Origin unit_grid) /\
     veq (call_stop c) (mkVVector 0 0 1)).
Proof.
  split.
  - destruct (fill_in_profiles_ray_endpoints false bool cube_grid
                (GetSegmentProfile half_space) Bool.eqb float_of_bool
                (repeat false 3) (Some (repeat false 3)) 1 2)
      as (c & Hc & Hstart & Hstop & _).
    + reflexivity.
    + intros pre H. inversion H. reflexivity.
    + intros x y _ _. left. reflexivity.
    + simpl. lia.
    + simpl. lia.
    + exists c. split; [exact Hc |]. split; [exact Hstart | exact Hstop].
  - destruct (fill_in_profiles_ray_endpoints false bool unit_grid
                (GetSegmentProfile half_space) Bool.eqb float_of_bool
                (repeat false 2) (Some (repeat false 2)) 0 0)
      as (c & Hc & _ & _ & _ & H00).
    + reflexivity.
    + intros pre H. inversion H. reflexivity.
    + intros x y _ _. left. reflexivity.
    + simpl. lia.
    + simpl. lia.
    + exists c. split; [exact Hc |].
      destruct (H00 eq_refl eq_refl) as (Hs & Ht).
      * repeat split; reflexivity.
      * split; [exact Hs |].
        destruct Ht as (T1 & T2 & T3). repeat split; cbn [vx vy vz] in *.
        -- rewrite T1. reflexivity.
        -- rewrite T2. reflexivity.
        -- rewrite T3. reflexivity.
Defined.

(** C5 as stated fails in the arithmetic of the source.  Over binary64,
    on a row of seven voxels of [0.1] mm at the origin, the ray of column
    [(0, 6)] starts at the y coordinate reached by six additions of the
    step, which is below the one the formula
    [origin + x*XRes*XDirection + y*YRes*YDirection] gives. *)
Lemma accumulated_start_misses_closed_form :
  exists start stop,
    nth_error (Binary64.end_points64 Binary64.tenth_grid) (0 * 7 + 6)
    = Some (start, stop) /\
    PrimFloat.eqb (Binary64.y64 start)
      (Binary64.y64 (Binary64.closed_form_start64 Binary64.tenth_grid 0 6))
    = false /\
    PrimFloat.ltb (Binary64.y64 start)
      (Binary64.y64 (Binary64.closed_form_start64 Binary64.tenth_grid 0 6))
    = true /\
    PrimFloat.eqb
      (Binary64.y64 (Binary64.closed_form_start64 Binary64.tenth_grid 0 6))
      (PrimFloat.mul (Binary64.of_int 6) Binary64.tenth)
    = true.
Proof.
  exists (Binary64.accumulated_start64 Binary64.tenth_grid 0 6).
  exists (Binary64.op_Addition64
            (Binary64.accumulated_start64 Binary64.tenth_grid 0 6)
            (Binary64.op_Multiply64
               (PrimFloat.mul (Binary64.of_int 0) Binary64.tenth)
               (gZDirection Binary64.tenth_grid))).
  split.
  - exact (end_points_nth Binary64.double Binary64.VVector64 PrimFloat.mul
             Binary64.of_int Binary64.op_Addition64 Binary64.op_Multiply64
             Binary64.tenth_grid 0 6 (Nat.lt_0_succ 0) (Nat.lt_succ_diag_r 6)).
  - split; [vm_compute; reflexivity |].
    split; vm_compute; reflexivity.
Qed.

(** ** Partial volume of one voxel *)

Lemma count_true_app (l1 l2 : list bool) :
  count_true (l1 ++ l2) = (count_true l1 + count_true l2)%Z.
Proof. unfold count_true. rewrite filter_app, length_app. lia. Qed.

Lemma count_true_bounds (l : list bool) :
  (0 <= count_true l <= Z.of_nat (length l))%Z.
Proof.
  unfold count_true. pose proof (filter_length_le (fun b : bool => b) l). lia.
Qed.

Lemma fold_left_count (l : list bool) (f0 : Z) :
  fold_left (fun f (b : bool) => if b then (f + 1)%Z else f) l f0
  = (f0 + count_true l)%Z.
Proof.
  revert f0. induction l as [| b l IH]; intros f0.
  - unfold count_true. simpl. lia.
  - cbn [fold_left]. rewrite IH. unfold count_true.
    destruct b; cbn [filter length]; lia.
Qed.

Lemma flat_map_singleton {A B} (F : A -> B) (l : list A) :
  flat_map (fun a => [F a]) l = map F l.
Proof. induction l as [| a l IH]; simpl; [reflexivity | now rewrite IH]. Qed.

(** A loop whose body makes the calls [tr a] and adds to its counter the
    number of inside samples they report. *)
Lemma for_each_count {A} (s : Structure) (tr : A -> list ProfileCall)
    (body : A -> Z -> M Z) :
  (forall a f,
     body a f = (tr a, inr (f + count_true (flat_map (response s) (tr a)))%Z)) ->
  forall l f,
    for_each l body f =
    (flat_map tr l,
     inr (f + count_true (flat_map (response s) (flat_map tr l)))%Z).
Proof.
  intros Hb. induction l as [| a l IH]; intros f.
  - simpl. unfold ret, count_true. simpl. now rewrite Z.add_0_r.
  - cbn [for_each flat_map].
    erewrite bind_ok; [ | apply Hb | apply IH ].
    rewrite flat_map_app, count_true_app. now rewrite Z.add_assoc.
Qed.

(** The loop body for one voxel makes the calls [sub_calls] and returns
    the number of inside samples over [sub_samples ^ 3]. *)
Lemma partial_volume_spec s g n ix iy iz :
  partial_volume s g n ix iy iz =
  (sub_calls g n ix iy iz, inr (sub_fraction s g n ix iy iz)).
Proof.
  unfold partial_volume, sub_calls, sub_fraction.
  erewrite bind_ok; cycle 1.
  - apply (for_each_count s) with
      (tr := fun xf =>
         map (fun yf =>
           mkCall
             (mkVVector (vx (Origin g) + inject_Z (Z.of_nat ix) * XRes g + xf)
                        (vy (Origin g) + inject_Z (Z.of_nat iy) * YRes g + yf)
                        (vz (Origin g) + inject_Z (Z.of_nat iz) * ZRes g
                         - (1#2) * ZRes g))
             (mkVVector (vx (Origin g) + inject_Z (Z.of_nat ix) * XRes g + xf)
                        (vy (Origin g) + inject_Z (Z.of_nat iy) * YRes g + yf)
                        (vz (Origin g) + inject_Z (Z.of_nat iz) * ZRes g
                         + (1#2) * ZRes g))
             (Z.to_nat n))
           (np_linspace ((-1#2) * YRes g) ((1#2) * YRes g) (Z.to_nat n))).
    intros xf f.
    rewrite <- flat_map_singleton.
    apply (for_each_count s).
    intros yf f'. unfold call_profile, bind, ret. cbn [flat_map app].
    rewrite fold_left_count, !app_nil_r. reflexivity.
  - reflexivity.
  - rewrite app_nil_r. reflexivity.
Qed.

Lemma length_product {A B C} (F : A -> B -> C) (l1 : list A) (l2 : list B) :
  length (flat_map (fun a => map (F a) l2) l1) = length l1 * length l2.
Proof.
  induction l1 as [| a l1 IH]; [reflexivity |].
  cbn [flat_map length]. rewrite length_app, length_map, IH. lia.
Qed.

Lemma nth_error_product {A B C} (F : A -> B -> C) (l2 : list B) n2 j b :
  length l2 = n2 ->
  nth_error l2 j = Some b ->
  forall (l1 : list A) i a,
    nth_error l1 i = Some a ->
    nth_error (flat_map (fun a => map (F a) l2) l1) (i * n2 + j)
    = Some (F a b).
Proof.
  intros <- Hj.
  assert (Hlt : j < length l2) by (apply nth_error_Some; congruence).
  induction l1 as [| a1 l1 IH]; intros i a Hi; [destruct i; discriminate |].
  cbn [flat_map]. destruct i as [| i]; simpl in Hi.
  - inversion Hi; subst.
    rewrite nth_error_app1 by (rewrite length_map; simpl; lia).
    simpl. now rewrite nth_error_map, Hj.
  - rewrite nth_error_app2 by (rewrite length_map; simpl; lia).
    rewrite length_map.
    replace (S i * length l2 + j - length l2) with (i * length l2 + j)
      by (simpl; lia).
    now apply IH.
Qed.

Lemma length_np_linspace a b n : length (np_linspace a b n) = n.
Proof. unfold np_linspace. now rewrite length_map, length_seq. Qed.




Lemma length_responses (s : Structure) (cs : list ProfileCall) (n : nat) :
  Forall (fun c => call_len c = n) cs ->
  length (flat_map (response s) cs) = length cs * n.
Proof.
  induction 1 as [| c cs Hc _ IH]; [reflexivity |].
  cbn [flat_map length]. rewrite length_app, IH. unfold response.
  rewrite length_map, length_seq, Hc. lia.
Qed.

Lemma sub_calls_len g n ix iy iz :
  Forall (fun c => call_len c = Z.to_nat n) (sub_calls g n ix iy iz).
Proof.
  unfold sub_calls. apply Forall_forall. intros c Hc.
  apply in_flat_map in Hc. destruct Hc as (xf & _ & Hc).
  apply in_map_iff in Hc. destruct Hc as (yf & <- & _). reflexivity.
Qed.

Lemma length_sub_calls g n ix iy iz :
  length (sub_calls g n ix iy iz) = Z.to_nat n * Z.to_nat n.
Proof. unfold sub_calls. now rewrite length_product, !length_np_linspace. Qed.



(** ** Dilation, erosion and the boundary *)

Lemma erosion_in_dilation (a : ndarray float) x y z :
  item (binary_erosion a) x y z = true -> item (binary_dilation a) x y z = true.
Proof.
  unfold binary_erosion, binary_dilation; cbn [item].
  intros H. apply andb_prop in H. destruct H as [H _]. now rewrite H.
Qed.

(** A voxel of the boundary is in the dilated mask and not in the eroded
    one. *)
Lemma boundary_not_eroded (a : ndarray float) x y z :
  item (np_xor (binary_dilation a) (binary_erosion a)) x y z = true ->
  item (binary_dilation a) x y z = true /\ item (binary_erosion a) x y z = false.
Proof.
  unfold np_xor; cbn [item]. intros H.
  destruct (item (binary_erosion a) x y z) eqn:He.
  - rewrite (erosion_in_dilation a x y z He) in H. discriminate.
  - destruct (item (binary_dilation a) x y z); [auto | discriminate].
Qed.

Lemma in_indices shp x y z :
  In (x, y, z) (indices shp) <-> in_shape shp x y z = true.
Proof.
  destruct shp as [[nx ny] nz]. unfold indices, in_shape.
  rewrite in_flat_map. split.
  - intros (x' & Hx & H). apply in_flat_map in H. destruct H as (y' & Hy & H).
    apply in_map_iff in H. destruct H as (z' & E & Hz). inversion E; subst.
    apply in_seq in Hx, Hy, Hz.
    destruct (Nat.ltb_spec x nx); [| lia].
    destruct (Nat.ltb_spec y ny); [| lia].
    destruct (Nat.ltb_spec z nz); [reflexivity | lia].
  - intros H. apply andb_prop in H. destruct H as [H Hz].
    apply andb_prop in H. destruct H as [Hx Hy].
    apply Nat.ltb_lt in Hx, Hy, Hz.
    exists x. split; [apply in_seq; lia |].
    apply in_flat_map. exists y. split; [apply in_seq; lia |].
    apply in_map_iff. exists z. split; [reflexivity | apply in_seq; lia].
Qed.

Lemma in_np_where (b : ndarray bool) x y z :
  In (x, y, z) (np_where b) <->
  in_shape (shape b) x y z = true /\ item b x y z = true.
Proof. unfold np_where. rewrite filter_In, in_indices. reflexivity. Qed.

Lemma idx_eqb_eq a b : idx_eqb a b = true <-> a = b.
Proof.
  destruct a as [[x y] z], b as [[x' y'] z']. unfold idx_eqb.
  rewrite !andb_true_iff, !Nat.eqb_eq. split.
  - intros [[-> ->] ->]. reflexivity.
  - intros E. inversion E. auto.
Qed.

Lemma existsb_idx (p : nat * nat * nat) (l : list (nat * nat * nat)) :
  existsb (idx_eqb p) l = true <-> In p l.
Proof.
  rewrite existsb_exists. split.
  - intros (q & Hq & E). apply idx_eqb_eq in E. now subst.
  - intros H. exists p. split; [assumption | now apply idx_eqb_eq].
Qed.

(** ** The loop over the boundary voxels *)

Lemma for_each_pure {A S} (tr : A -> list ProfileCall) (step : A -> S -> S)
    (body : A -> S -> M S) :
  (forall a s, body a s = (tr a, inr (step a s))) ->
  forall l s,
    for_each l body s =
    (flat_map tr l, inr (fold_left (fun s a => step a s) l s)).
Proof.
  intros Hb. induction l as [| a l IH]; intros s; [reflexivity |].
  cbn [for_each flat_map fold_left].
  erewrite bind_ok; [ reflexivity | apply Hb | apply IH ].
Qed.

Lemma fold_left_pointwise {A B} (f h : A -> B -> A) :
  (forall a b, f a b = h a b) ->
  forall l a, fold_left f l a = fold_left h l a.
Proof.
  intros E. induction l as [| b l IH]; intros a; [reflexivity |].
  simpl. now rewrite E, IH.
Qed.

Lemma fold_setitem (v : nat -> nat -> nat -> float) :
  forall (l : list (nat * nat * nat)) (p : ndarray float),
    let r := fold_left (fun p '(ix, iy, iz) => setitem p ix iy iz (v ix iy iz)) l p in
    shape r = shape p /\
    forall x y z,
      item r x y z = if existsb (idx_eqb (x, y, z)) l then v x y z else item p x y z.
Proof.
  induction l as [| [[ix iy] iz] l IH]; intros p; cbn zeta.
  - split; reflexivity.
  - cbn [fold_left existsb].
    destruct (IH (setitem p ix iy iz (v ix iy iz))) as [Hs Hi].
    split; [exact Hs |].
    intros x y z. rewrite Hi.
    destruct (existsb (idx_eqb (x, y, z)) l).
    + now rewrite orb_true_r.
    + rewrite orb_false_r. unfold setitem, idx_eqb; cbn [item].
      destruct ((x =? ix) && (y =? iy) && (z =? iz)) eqn:E; [| reflexivity].
      rewrite !andb_true_iff, !Nat.eqb_eq in E. destruct E as [[-> ->] ->].
      reflexivity.
Qed.

(** The calls of the boundary loop, voxel after voxel. *)
Lemma fill_partials_spec s g n mask boundary :
  exists partials,
    fill_partials s g n mask boundary =
      (flat_map (fun '(ix, iy, iz) => sub_calls g n ix iy iz) (np_where boundary),
       inr partials) /\
    shape partials = shape mask /\
    forall x y z,
      item partials x y z =
      if existsb (idx_eqb (x, y, z)) (np_where boundary)
      then sub_fraction s g n x y z else Fin 0.
Proof.
  unfold fill_partials.
  rewrite (for_each_pure
             (fun '(ix, iy, iz) => sub_calls g n ix iy iz)
             (fun '(ix, iy, iz) p => setitem p ix iy iz (sub_fraction s g n ix iy iz))).
  - destruct (fold_setitem (sub_fraction s g n) (np_where boundary)
                (np_zeros (shape mask))) as [Hs Hi].
    eexists. split; [| split; [exact Hs | exact Hi]].
    f_equal. f_equal. apply fold_left_pointwise.
    intros p [[ix iy] iz]. reflexivity.
  - intros [[ix iy] iz] p. rewrite partial_volume_spec.
    unfold bind, ret. now rewrite app_nil_r.
Qed.

(** ** The sub-sampled mask *)

(** C9: at every voxel of the boundary the eroded mask is false, and at
    every other voxel the partial-volume array is zero; so the sum
    [mask_partials + mask_eroded] is the partial value on the boundary and
    the eroded value elsewhere, never the two added up. *)
Theorem partials_and_eroded_disjoint
    (s : Structure) (g : Grid) (n : Z) (mask : ndarray float) :
  let mask_eroded := binary_erosion mask in
  let mask_boundary := np_xor (binary_dilation mask) mask_eroded in
  exists mask_partials,
    outcome (fill_partials s g n mask mask_boundary) = inr mask_partials /\
    forall x y z,
      if item mask_boundary x y z then
        item mask_eroded x y z = false /\
        float_eq (item (np_add_bool mask_partials mask_eroded) x y z)
                 (item mask_partials x y z)
      else
        item mask_partials x y z = Fin 0 /\
        float_eq (item (np_add_bool mask_partials mask_eroded) x y z)
                 (float_of_bool (item mask_eroded x y z)).
Proof.
  intros mask_eroded mask_boundary.
  destruct (fill_partials_spec s g n mask mask_boundary) as (mp & Hf & _ & Hi).
  exists mp. split; [now rewrite Hf |].
  intros x y z.
  destruct (item mask_boundary x y z) eqn:Hb.
  - destruct (boundary_not_eroded mask x y z Hb) as [_ He].
    split; [exact He |].
    unfold np_add_bool; cbn [item]. fold mask_eroded. unfold mask_eroded at 1.
    rewrite He. destruct (item mp x y z) as [| q]; simpl; [exact I | ring].
  - assert (Hp : item mp x y z = Fin 0).
    { rewrite Hi. destruct (existsb _ _) eqn:E; [| reflexivity].
      apply existsb_idx, in_np_where in E. destruct E as [_ E]. congruence. }
    split; [exact Hp |].
    unfold np_add_bool; cbn [item]. rewrite Hp. simpl. ring.
Qed.

Lemma fraction_bounds (c d : Z) :
  (0 <= c <= d)%Z -> (0 < d)%Z ->
  (0 <= inject_Z c / inject_Z d)%Q /\ (inject_Z c / inject_Z d <= 1)%Q.
Proof.
  intros Hc Hd.
  assert (Hq : (0 < inject_Z d)%Q).
  { change 0%Q with (inject_Z 0). rewrite <- Zlt_Qlt. exact Hd. }
  split.
  - apply Qle_shift_div_l; [exact Hq |]. rewrite Qmult_0_l.
    change 0%Q with (inject_Z 0). rewrite <- Zle_Qle. lia.
  - apply Qle_shift_div_r; [exact Hq |]. rewrite Qmult_1_l.
    rewrite <- Zle_Qle. lia.
Qed.

(** The value stored for a voxel is a fraction between 0 and 1. *)
Lemma sub_fraction_bounds s g n ix iy iz :
  (1 < n)%Z ->
  exists q, sub_fraction s g n ix iy iz = Fin q /\ (0 <= q)%Q /\ (q <= 1)%Q.
Proof.
  intros Hn. unfold sub_fraction. eexists. split; [reflexivity |].
  apply fraction_bounds; [| lia].
  pose proof (count_true_bounds
                (flat_map (response s) (sub_calls g n ix iy iz))) as Hc.
  rewrite (length_responses s _ (Z.to_nat n) (sub_calls_len g n ix iy iz)) in Hc.
  rewrite length_sub_calls in Hc. rewrite !Nat2Z.inj_mul, Z2Nat.id in Hc by lia.
  lia.
Qed.

(** The whole call with an integer [sub_samples > 1]. *)
Lemma make_segment_mask_for_grid_spec SAFE_MODE g s n :
  HasSegment s = true ->
  SAFE_MODE = false \/ 0 < ZSize g ->
  (1 < n)%Z ->
  exists mask partials,
    make_segment_mask_for_structure SAFE_MODE g s = (scan_calls g, inr mask) /\
    shape mask = (XSize g, YSize g, ZSize g) /\
    fill_partials s g n mask (np_xor (binary_dilation mask) (binary_erosion mask)) =
      (flat_map (fun '(ix, iy, iz) => sub_calls g n ix iy iz)
         (np_where (np_xor (binary_dilation mask) (binary_erosion mask))),
       inr partials) /\
    make_segment_mask_for_grid SAFE_MODE s (Some g) (PyInt n) =
      (scan_calls g ++
       flat_map (fun '(ix, iy, iz) => sub_calls g n ix iy iz)
         (np_where (np_xor (binary_dilation mask) (binary_erosion mask))),
       inr (np_add_bool partials (binary_erosion mask))).
Proof.
  intros Hseg Hsafe Hn.
  destruct (binary_mask_scan SAFE_MODE g s Hseg Hsafe) as (mask & Hm & Hs & _).
  destruct (fill_partials_spec s g n mask
              (np_xor (binary_dilation mask) (binary_erosion mask)))
    as (partials & Hf & _).
  exists mask, partials. repeat split; try assumption.
  unfold make_segment_mask_for_grid.
  erewrite bind_ok; [ reflexivity | exact Hm | ].
  cbn [type_of PyType_eqb]. unfold assert at 1. rewrite bind_ret.
  destruct (Z.ltb_spec 1 n) as [_ | H]; [| lia].
  unfold assert. rewrite bind_ret.
  erewrite bind_ok; [ | exact Hf | reflexivity ].
  now rewrite app_nil_r.
Qed.

(** C1: with an integer [sub_samples > 1], every element of the array
    returned by [make_segment_mask_for_grid] lies between 0 and 1, and at
    every voxel outside the boundary (dilated xor eroded) it is the value
    of the eroded mask, 1 or 0. *)
Theorem make_segment_mask_for_grid_bounded
    (SAFE_MODE : bool) (g : Grid) (s : Structure) (n : Z) :
  HasSegment s = true ->
  SAFE_MODE = false \/ 0 < ZSize g ->
  (1 < n)%Z ->
  exists mask result,
    outcome (make_segment_mask_for_structure SAFE_MODE g s) = inr mask /\
    outcome (make_segment_mask_for_grid SAFE_MODE s (Some g) (PyInt n)) = inr result /\
    shape result = (XSize g, YSize g, ZSize g) /\
    forall x y z, x < XSize g -> y < YSize g -> z < ZSize g ->
      exists q,
        item result x y z = Fin q /\
        (0 <= q)%Q /\ (q <= 1)%Q /\
        (item (np_xor (binary_dilation mask) (binary_erosion mask)) x y z = false ->
         (q == if item (binary_erosion mask) x y z then 1 else 0)%Q).
Proof.
  intros Hseg Hsafe Hn.
  destruct (make_segment_mask_for_grid_spec SAFE_MODE g s n Hseg Hsafe Hn)
    as (mask & partials & Hm & Hs & Hf & Hg).
  destruct (fill_partials_spec s g n mask
              (np_xor (binary_dilation mask) (binary_erosion mask)))
    as (partials' & Hf' & Hsp & Hi).
  rewrite Hf in Hf'. inversion Hf'; subst partials'. clear Hf'.
  exists mask, (np_add_bool partials (binary_erosion mask)).
  rewrite Hm, Hg. unfold outcome; cbn [snd].
  split; [reflexivity | split; [reflexivity | split]].
  - cbn [np_add_bool shape]. now rewrite Hsp.
  - intros x y z Hx Hy Hz. unfold np_add_bool; cbn [item]. rewrite Hi.
    destruct (existsb _ _) eqn:E.
    + apply existsb_idx, in_np_where in E. destruct E as [_ Hb].
      destruct (boundary_not_eroded mask x y z Hb) as [_ He]. rewrite He.
      destruct (sub_fraction_bounds s g n x y z Hn) as (q & -> & H0 & H1).
      exists (q + 0)%Q. split; [reflexivity |].
      rewrite Qplus_0_r. split; [exact H0 | split; [exact H1 |]].
      intros Hnb. congruence.
    + exists (0 + (if item (binary_erosion mask) x y z then 1 else 0))%Q.
      split; [reflexivity |]. rewrite Qplus_0_l.
      destruct (item (binary_erosion mask) x y z);
        (split; [| split]); try (intros _; reflexivity);
        unfold Qle; simpl; lia.
Qed.

Lemma make_segment_mask_for_grid_bounded_witness :
  exists mask result,
    outcome (make_segment_mask_for_structure true cube_grid everywhere) = inr mask /\
    outcome (make_segment_mask_for_grid true everywhere (Some cube_grid) (PyInt 3))
      = inr result /\
    shape result = (3, 3, 3) /\
    forall x y z, x < 3 -> y < 3 -> z < 3 ->
      exists q,
        item result x y z = Fin q /\
        (0 <= q)%Q /\ (q <= 1)%Q /\
        (item (np_xor (binary_dilation mask) (binary_erosion mask)) x y z = false ->
         (q == if item (binary_erosion mask) x y z then 1 else 0)%Q).
Proof.
  apply (make_segment_mask_for_grid_bounded true cube_grid everywhere 3).
  - reflexivity.
  - right. simpl. lia.
  - reflexivity.
Defined.

(** ** Order of the checks *)

Lemma calls_of_failed_continuation {A B} (m : M A) (k : A -> M B) :
  (forall a, exists e, k a = ([], inl e)) ->
  calls (bind m k) = calls m /\ forall b, outcome (bind m k) <> inr b.
Proof.
  intros Hk. destruct m as [t [e | a]]; simpl.
  - split; [reflexivity | discriminate].
  - destruct (Hk a) as (e & ->). simpl. rewrite app_nil_r.
    split; [reflexivity | discriminate].
Qed.

(** C3, as the code has it: a [sub_samples <= 1] is refused with the
    assertion error "sub_samples must be > 1", but only once the binary
    mask has been built: the calls made are exactly those of the mask
    scan (one per column when the structure has segment data), and no
    refinement query follows.  Missing segment data is refused before
    any profile call, whatever [sub_samples] is. *)
Theorem sub_samples_checked_after_scan
    (SAFE_MODE : bool) (g : Grid) (s : Structure) (n : Z) :
  (n <= 1)%Z ->
  calls (make_segment_mask_for_grid SAFE_MODE s (Some g) (PyInt n)) =
    calls (make_segment_mask_for_structure SAFE_MODE g s) /\
  (forall arr,
     outcome (make_segment_mask_for_grid SAFE_MODE s (Some g) (PyInt n)) <> inr arr) /\
  if HasSegment s then
    SAFE_MODE = false \/ 0 < ZSize g ->
    make_segment_mask_for_grid SAFE_MODE s (Some g) (PyInt n) =
      (scan_calls g, inl (AssertionError "sub_samples must be > 1")) /\
    length (scan_calls g) = XSize g * YSize g
  else
    make_segment_mask_for_structure SAFE_MODE g s =
      ([], inl (Exception "structure has no segment data")) /\
    forall v,
      make_segment_mask_for_grid SAFE_MODE s (Some g) v =
        ([], inl (Exception "structure has no segment data")).
Proof.
  intros Hn.
  assert (Hk : forall mask : ndarray float,
            exists e,
              (assert (PyType_eqb (type_of (PyInt n)) Tint)
                      "sub_samples must be an integer" ;;;
               assert (1 <? n)%Z "sub_samples must be > 1" ;;;
               mask_partials <-
                 fill_partials s g n mask
                   (np_xor (binary_dilation mask) (binary_erosion mask)) ;;
               ret (np_add_bool mask_partials (binary_erosion mask)))
              = ([], inl e)).
  { intros mask. exists (AssertionError "sub_samples must be > 1").
    cbn [type_of PyType_eqb]. unfold assert at 1. rewrite bind_ret.
    destruct (Z.ltb_spec 1 n) as [H | _]; [lia | reflexivity]. }
  destruct (calls_of_failed_continuation
              (make_segment_mask_for_structure SAFE_MODE g s) _ Hk) as [Hc Ho].
  split; [exact Hc | split; [exact Ho |]].
  destruct (HasSegment s) eqn:Hseg.
  - intros Hsafe. split; [| apply scan_calls_length].
    destruct (binary_mask_scan SAFE_MODE g s Hseg Hsafe) as (mask & Hm & _).
    unfold make_segment_mask_for_grid.
    erewrite bind_ok; [ | exact Hm | ].
    2:{ cbn [type_of PyType_eqb]. unfold assert at 1. rewrite bind_ret.
        destruct (Z.ltb_spec 1 n) as [H | _]; [lia | reflexivity]. }
    now rewrite app_nil_r.
  - split; [now apply no_segment_data |].
    intros v. unfold make_segment_mask_for_grid.
    now rewrite (no_segment_data SAFE_MODE g s Hseg).
Qed.

Lemma sub_samples_checked_after_scan_witness :
  (make_segment_mask_for_grid false half_space (Some unit_grid) (PyInt 0) =
     (scan_calls unit_grid, inl (AssertionError "sub_samples must be > 1")) /\
   length (scan_calls unit_grid) = 2 * 2) /\
  make_segment_mask_for_grid false no_segment (Some unit_grid) (PyInt 0) =
    ([], inl (Exception "structure has no segment data")).
Proof.
  split.
  - apply (sub_samples_checked_after_scan false unit_grid half_space 0).
    + lia.
    + left. reflexivity.
  - apply (sub_samples_checked_after_scan false unit_grid no_segment 0).
    lia.
Defined.

(** C3 as stated fails: with [sub_samples = 1] on a structure with segment
    data, the four columns of the grid are scanned before the assertion
    error is raised. *)
Lemma sub_samples_check_is_late :
  outcome (make_segment_mask_for_grid false half_space (Some unit_grid) (PyInt 1))
    = inl (AssertionError "sub_samples must be > 1") /\
  calls (make_segment_mask_for_grid false half_space (Some unit_grid) (PyInt 1))
    = scan_calls unit_grid /\
  length (scan_calls unit_grid) = 4 /\
  calls (make_segment_mask_for_grid false half_space (Some unit_grid) (PyInt 1))
    <> [].
Proof.
  split; [vm_compute; reflexivity |].
  split; [vm_compute; reflexivity |].
  split; [reflexivity |].
  vm_compute. discriminate.
Qed.

(** C10: a [sub_samples] that is given (not [None]) and whose type is not
    exactly [int] (the float [2.0], the boolean [True], ...) never yields
    an array and never reaches the refinement: the only calls are those of
    the binary mask scan, after which the call fails with the assertion
    error "sub_samples must be an integer", whatever the value compares
    to. *)
Theorem sub_samples_type_gate
    (SAFE_MODE : bool) (g : Grid) (s : Structure) (v : PyVal) :
  type_of v <> NoneType ->
  type_of v <> Tint ->
  HasSegment s = true ->
  SAFE_MODE = false \/ 0 < ZSize g ->
  make_segment_mask_for_grid SAFE_MODE s (Some g) v =
    (scan_calls g, inl (AssertionError "sub_samples must be an integer")) /\
  calls (make_segment_mask_for_grid SAFE_MODE s (Some g) v) =
    calls (make_segment_mask_for_structure SAFE_MODE g s).
Proof.
  intros Hnone Hint Hseg Hsafe.
  destruct (binary_mask_scan SAFE_MODE g s Hseg Hsafe) as (mask & Hm & _).
  assert (Hg : make_segment_mask_for_grid SAFE_MODE s (Some g) v =
               (scan_calls g, inl (AssertionError "sub_samples must be an integer"))).
  { unfold make_segment_mask_for_grid.
    erewrite bind_ok; [ | exact Hm | ].
    2:{ destruct v; cbn [type_of PyType_eqb] in *;
          try congruence; reflexivity. }
    now rewrite app_nil_r. }
  split; [exact Hg |]. now rewrite Hg, Hm.
Qed.

Lemma sub_samples_type_gate_witness :
  (make_segment_mask_for_grid false half_space (Some unit_grid) (PyFloat (Fin 2)) =
     (scan_calls unit_grid, inl (AssertionError "sub_samples must be an integer")) /\
   calls (make_segment_mask_for_grid false half_space (Some unit_grid)
            (PyFloat (Fin 2))) =
     calls (make_segment_mask_for_structure false unit_grid half_space)) /\
  (make_segment_mask_for_grid false half_space (Some unit_grid) (PyBool true) =
     (scan_calls unit_grid, inl (AssertionError "sub_samples must be an integer")) /\
   calls (make_segment_mask_for_grid false half_space (Some unit_grid)
            (PyBool true)) =
     calls (make_segment_mask_for_structure false unit_grid half_space)).
Proof.
  split.
  - apply (sub_samples_type_gate false unit_grid half_space (PyFloat (Fin 2))).
    + discriminate.
    + discriminate.
    + reflexivity.
    + left. reflexivity.
  - apply (sub_samples_type_gate false unit_grid half_space (PyBool true)).
    + discriminate.
    + discriminate.
    + reflexivity.
    + left. reflexivity.
Defined.

(** ** Verification of copies *)

(** C4, the code at a diverging pair: in verification mode two arrays of
    equal length that agree at one position and differ at another pass
    [check_arrays], and the copy is returned; two empty arrays, which do
    not differ anywhere, are refused.  The check is [any] where the claim
    needs [all]. *)
Theorem check_arrays_accepts_divergence :
  check_arrays Z.eqb [1; 2]%Z [1; 3]%Z = ret tt /\
  nth_error [1; 2]%Z 1 <> nth_error [1; 3]%Z 1 /\
  check_arrays Z.eqb (@nil Z) (@nil Z) =
    raise (AssertionError "Arrays have different values!") /\
  to_ndarray true Z.eqb (@nil Z) =
    raise (AssertionError "Arrays have different values!").
Proof.
  split; [reflexivity |].
  split; [discriminate |].
  split; reflexivity.
Qed.

(** ** Dose arrays *)

Lemma plane_index (X Y x y : nat) :
  x < X -> y < Y ->
  x * Y + y < X * Y /\ (x * Y + y) / Y = x /\ (x * Y + y) mod Y = y.
Proof.
  intros Hx Hy. split; [nia |]. split.
  - rewrite Nat.div_add_l by lia. rewrite Nat.div_small by lia. lia.
  - rewrite Nat.add_comm, Nat.Div0.mod_add. now apply Nat.mod_small.
Qed.

Lemma image_planes SAFE_MODE (g : Grid) :
  SAFE_MODE = false \/ 0 < XSize g * YSize g ->
  forall n k arr,
    shape arr = (XSize g, YSize g, ZSize g) ->
    exists arr',
      for_each (seq k n)
        (fun z _array =>
           dest <- to_ndarray SAFE_MODE Z.eqb
                     (map (fun i => GetVoxels g z (i / YSize g) (i mod YSize g))
                          (seq 0 (XSize g * YSize g))) ;;
           setitem_plane _array z (map float_of_Z dest))
        arr = ([], inr arr') /\
      shape arr' = (XSize g, YSize g, ZSize g) /\
      (forall x y z, k <= z < k + n -> x < XSize g -> y < YSize g ->
         item arr' x y z = float_of_Z (GetVoxels g z x y)) /\
      (forall x y z, z < k \/ k + n <= z -> item arr' x y z = item arr x y z).
Proof.
  intros Hsafe. induction n as [| n IH]; intros k arr Hs.
  - exists arr. simpl. repeat split; try assumption; intros; lia.
  - set (plane z := map (fun i => GetVoxels g z (i / YSize g) (i mod YSize g))
                        (seq 0 (XSize g * YSize g))).
    set (arr1 := mk_ndarray (XSize g, YSize g, ZSize g)
           (fun x' y' z' =>
              if z' =? k then nth (x' * YSize g + y') (map float_of_Z (plane k)) NaN
              else item arr x' y' z')).
    destruct (IH (S k) arr1 eq_refl) as (arr' & Hf & Hs' & Ha & Hb).
    exists arr'. split; [| split; [assumption | split]].
    + cbn [seq for_each]. fold (plane k).
      assert (Hlen : (length (map float_of_Z (plane k)) =? XSize g * YSize g) = true).
      { unfold plane. rewrite !length_map, length_seq. apply Nat.eqb_refl. }
      assert (Hstep :
                (dest <- to_ndarray SAFE_MODE Z.eqb (plane k) ;;
                 setitem_plane arr k (map float_of_Z dest)) = ([], inr arr1)).
      { rewrite to_ndarray_verified, bind_ret.
        - unfold setitem_plane. rewrite Hs, Hlen. reflexivity.
        - apply verified_Z. unfold plane. now rewrite length_map, length_seq. }
      erewrite bind_ok; [ | exact Hstep | exact Hf ]. reflexivity.
    + intros x y z Hz Hx Hy.
      destruct (Nat.eq_dec z k) as [-> | Hne].
      * rewrite Hb by lia. unfold arr1; cbn [item]. rewrite Nat.eqb_refl.
        destruct (plane_index (XSize g) (YSize g) x y Hx Hy) as (Hlt & Hd & Hm).
        unfold plane. rewrite map_map, nth_map_seq by exact Hlt.
        now rewrite Hd, Hm.
      * apply Ha; lia.
    + intros x y z H. rewrite Hb by lia. unfold arr1; cbn [item].
      destruct (Nat.eqb_spec z k); [lia | reflexivity].
Qed.

(** [image_to_nparray] returns the stored integers, converted. *)
Lemma image_to_nparray_spec SAFE_MODE (g : Grid) :
  SAFE_MODE = false \/ 0 < XSize g * YSize g ->
  exists arr,
    image_to_nparray SAFE_MODE g = ([], inr arr) /\
    shape arr = (XSize g, YSize g, ZSize g) /\
    forall x y z, x < XSize g -> y < YSize g -> z < ZSize g ->
      item arr x y z = float_of_Z (GetVoxels g z x y).
Proof.
  intros Hsafe.
  destruct (image_planes SAFE_MODE g Hsafe (ZSize g) 0
              (np_zeros (XSize g, YSize g, ZSize g)) eq_refl)
    as (arr & Hf & Hs & Ha & _).
  exists arr. split; [exact Hf | split; [exact Hs |]].
  intros x y z Hx Hy Hz. apply Ha; lia.
Qed.

Lemma py_truediv_returns (a b : float) :
  feqb b (Fin 0) = false -> exists offset, py_truediv a b = ret offset.
Proof.
  unfold py_truediv, feqb. destruct b as [| q].
  - intros _. destruct a; eexists; reflexivity.
  - intros ->. destruct a; eexists; reflexivity.
Qed.

(** [dose_to_nparray]: the stored integers under [scale * v + offset],
    with the offset the code computes, [dose(0) / scale]. *)
Lemma dose_to_nparray_spec SAFE_MODE (dose : Dose) :
  SAFE_MODE = false \/ 0 < XSize (dose_grid dose) * YSize (dose_grid dose) ->
  feqb (dose_scale dose) (Fin 0) = false ->
  exists offset arr,
    py_truediv (VoxelToDoseValue dose 0) (dose_scale dose) = ret offset /\
    dose_to_nparray SAFE_MODE dose = ([], inr arr) /\
    shape arr =
      (XSize (dose_grid dose), YSize (dose_grid dose), ZSize (dose_grid dose)) /\
    forall x y z,
      x < XSize (dose_grid dose) -> y < YSize (dose_grid dose) ->
      z < ZSize (dose_grid dose) ->
      item arr x y z =
      fadd (fmul (dose_scale dose)
                 (float_of_Z (GetVoxels (dose_grid dose) z x y)))
           offset.
Proof.
  intros Hsafe Hscale.
  destruct (image_to_nparray_spec SAFE_MODE (dose_grid dose) Hsafe)
    as (raw & Hraw & Hs & Hi).
  destruct (py_truediv_returns (VoxelToDoseValue dose 0) (dose_scale dose) Hscale)
    as (offset & Hoff).
  exists offset, (np_affine (dose_scale dose) raw offset).
  split; [exact Hoff |]. split; [| split].
  - unfold dose_to_nparray. fold (dose_scale dose).
    erewrite bind_ok; [ | exact Hraw | rewrite Hoff, bind_ret; reflexivity ].
    reflexivity.
  - exact Hs.
  - intros x y z Hx Hy Hz. unfold np_affine; cbn [item]. now rewrite Hi.
Qed.

(** When the calibration of [dose_to_nparray] is exact: the stored integers
    0 and 1 are mapped to [dose(0)] and [dose(1)] only if [dose(0)] is zero
    or the scale is one. *)
Lemma calibration_exact_iff (d0 d1 : Q) :
  ~ (d1 - d0 == 0)%Q ->
  ((d1 - d0) * 0 + d0 / (d1 - d0) == d0 /\
   (d1 - d0) * 1 + d0 / (d1 - d0) == d1)%Q <->
  (d0 == 0 \/ d1 - d0 == 1)%Q.
Proof.
  intros Hs. split.
  - intros [H0 _].
    assert (E : (d0 * (d1 - d0 - 1) == 0)%Q).
    { setoid_replace (d0 * (d1 - d0 - 1))%Q
        with (- (d1 - d0) * (((d1 - d0) * 0 + d0 / (d1 - d0)) - d0))%Q
        by (field; exact Hs).
      rewrite H0. ring. }
    apply Qmult_integral in E. destruct E as [E | E]; [now left | right].
    setoid_replace (d1 - d0)%Q with ((d1 - d0 - 1) + 1)%Q by ring.
    rewrite E. ring.
  - intros [E | E].
    + split.
      * setoid_replace (d0 / (d1 - d0))%Q with 0%Q; [rewrite E; ring |].
        rewrite E. field. intros H. apply Hs. rewrite E, H. ring.
      * setoid_replace (d0 / (d1 - d0))%Q with 0%Q.
        -- rewrite E. ring.
        -- rewrite E. field. intros H. apply Hs. rewrite E, H. ring.
    + split.
      * setoid_replace (d0 / (d1 - d0))%Q with (d0 / 1)%Q by (now rewrite E).
        field.
      * setoid_replace (d0 / (d1 - d0))%Q with (d0 / 1)%Q by (now rewrite E).
        setoid_replace ((d1 - d0) * 1 + d0 / 1)%Q with ((d1 - d0) + d0)%Q by field.
        ring.
Qed.

(** C2, the code at a dose with [dose(0) = 1] and [dose(1) = 3]: the
    stored integers 0 and 1 come out as 1/2 and 5/2, not as the two
    reference doses 1 and 3, because the offset [dose(0) / scale] is added
    after the scaling. *)
Theorem dose_to_nparray_misses_reference_doses :
  float_eq (VoxelToDoseValue two_voxel_dose 0) (Fin 1) /\
  float_eq (VoxelToDoseValue two_voxel_dose 1) (Fin 3) /\
  GetVoxels (dose_grid two_voxel_dose) 0 0 0 = 0%Z /\
  GetVoxels (dose_grid two_voxel_dose) 0 1 0 = 1%Z /\
  exists arr,
    dose_to_nparray false two_voxel_dose = ([], inr arr) /\
    float_eq (item arr 0 0 0) (Fin (1 # 2)) /\
    float_eq (item arr 1 0 0) (Fin (5 # 2)) /\
    ~ float_eq (item arr 0 0 0) (VoxelToDoseValue two_voxel_dose 0) /\
    ~ float_eq (item arr 1 0 0) (VoxelToDoseValue two_voxel_dose 1).
Proof.
  split; [reflexivity |]. split; [reflexivity |].
  split; [reflexivity |]. split; [reflexivity |].
  eexists. split; [vm_compute; reflexivity |].
  repeat split; try reflexivity; vm_compute; discriminate.
Qed.

(** C8: whenever a dose extraction returns, every entry of the returned
    array is the scanned or calibrated value of its voxel with NaN replaced
    by 0.0: on the path through an image grid the value is the sample the
    dose profile gave, on the default path it is [scale * stored + offset];
    an entry that is not NaN is returned unchanged. *)
Theorem make_dose_for_grid_scrubs_nan
    (SAFE_MODE : bool) (dose : Dose) (image : option Grid) :
  extraction_returns SAFE_MODE dose image ->
  match image with
  | Some img =>
      exists result,
        make_dose_for_grid SAFE_MODE dose (Some img) = (scan_calls img, inr result) /\
        shape result = (XSize img, YSize img, ZSize img) /\
        forall x y z, x < XSize img -> y < YSize img -> z < ZSize img ->
          item result x y z =
          scrubbed (GetDoseProfile dose (column_start img x y)
                      (column_stop img x y) (ZSize img) z)
  | None =>
      exists offset result,
        py_truediv (VoxelToDoseValue dose 0) (dose_scale dose) = ret offset /\
        make_dose_for_grid SAFE_MODE dose None = ([], inr result) /\
        shape result =
          (XSize (dose_grid dose), YSize (dose_grid dose), ZSize (dose_grid dose)) /\
        forall x y z,
          x < XSize (dose_grid dose) -> y < YSize (dose_grid dose) ->
          z < ZSize (dose_grid dose) ->
          item result x y z =
          scrubbed (fadd (fmul (dose_scale dose)
                            (float_of_Z (GetVoxels (dose_grid dose) z x y)))
                         offset)
  end.
Proof.
  destruct image as [img |]; cbn [extraction_returns].
  - intros Hv.
    destruct (fill_in_profiles_spec SAFE_MODE img (GetDoseProfile dose) feqb
                (fun v => v) (repeat (Fin 0) (ZSize img)) None)
      as (arr & Hf & Hs & Hi).
    + apply repeat_length.
    + discriminate.
    + intros x y Hx Hy. exact (Hv x y Hx Hy).
    + exists (nan_to_zero arr). split; [| split].
      * unfold make_dose_for_grid.
        erewrite bind_ok; [ | exact Hf | reflexivity ]. now rewrite app_nil_r.
      * exact Hs.
      * intros x y z Hx Hy Hz. unfold nan_to_zero, scrubbed; cbn [item].
        now rewrite Hi.
  - intros [Hsafe Hscale].
    destruct (dose_to_nparray_spec SAFE_MODE dose Hsafe Hscale)
      as (offset & arr & Hoff & Hd & Hs & Hi).
    exists offset, (nan_to_zero arr). split; [exact Hoff |]. split; [| split].
    + unfold make_dose_for_grid.
      erewrite bind_ok; [ | exact Hd | reflexivity ]. reflexivity.
    + exact Hs.
    + intros x y z Hx Hy Hz. unfold nan_to_zero, scrubbed; cbn [item].
      now rewrite Hi.
Qed.

Lemma make_dose_for_grid_scrubs_nan_witness :
  exists result,
    make_dose_for_grid false nan_dose (Some unit_grid) =
      (scan_calls unit_grid, inr result) /\
    GetDoseProfile nan_dose (column_start unit_grid 1 1)
      (column_stop unit_grid 1 1) 2 1 = NaN /\
    item result 1 1 1 = Fin 0 /\
    item result 1 1 0 = Fin 2 /\
    item result 0 1 1 = Fin 2.
Proof.
  destruct (make_dose_for_grid_scrubs_nan false nan_dose (Some unit_grid))
    as (result & Hm & _ & Hi).
  - intros x y _ _. left. reflexivity.
  - exists result. split; [exact Hm |]. split; [reflexivity |].
    split; [| split].
    + rewrite (Hi 1 1 1) by (simpl; lia). reflexivity.
    + rewrite (Hi 1 1 0) by (simpl; lia). reflexivity.
    + rewrite (Hi 0 1 1) by (simpl; lia). reflexivity.
Defined.

(** ** Two complete runs *)

(** A structure that encloses the grid gives a mask of ones, with and
    without sub-sampling; one that misses the grid gives zeros. *)
Example enclosing_structure :
  returns_constant (make_segment_mask_for_structure false cube_grid everywhere)
                   (Fin 1) = true /\
  returns_constant (make_segment_mask_for_grid false everywhere (Some cube_grid)
                      (PyInt 3)) (Fin 1) = true.
Proof. split; vm_compute; reflexivity. Qed.

Example disjoint_structure :
  returns_constant (make_segment_mask_for_structure false cube_grid nowhere)
                   (Fin 0) = true /\
  returns_constant (make_segment_mask_for_grid false nowhere (Some cube_grid)
                      (PyInt 3)) (Fin 0) = true.
Proof. split; vm_compute; reflexivity. Qed.

(* ================================================================== *)
(** * Further properties of the module *)

(** ** Copies and their verification *)

Lemma existsb_combine_positions {A B} (eqb : A -> B -> bool) :
  forall (a : list A) (b : list B),
    existsb (fun '(x, y) => eqb x y) (combine a b) = true <->
    exists i x y,
      nth_error a i = Some x /\ nth_error b i = Some y /\ eqb x y = true.
Proof.
  induction a as [| x a IH]; intros b.
  - simpl. split; [discriminate |].
    intros (i & x & y & Hx & _). destruct i; discriminate.
  - destruct b as [| y b].
    + simpl. split; [discriminate |].
      intros (i & x' & y' & _ & Hy & _). destruct i; discriminate.
    + cbn [combine existsb]. rewrite orb_true_iff, IH. split.
      * intros [H | (i & x' & y' & Hx & Hy & E)].
        -- exists 0, x, y. auto.
        -- exists (S i), x', y'. auto.
      * intros (i & x' & y' & Hx & Hy & E). destruct i as [| i].
        -- simpl in Hx, Hy. inversion Hx; inversion Hy; subst. now left.
        -- right. exists i, x', y'. auto.
Qed.

(** X1: [check_arrays] accepts exactly the pairs of arrays that have the
    same length and agree at one position at least; a difference in
    length is reported as "Arrays are different size!" whatever the
    elements are. *)
Theorem check_arrays_characterised {A B : Type} (eqb : A -> B -> bool)
    (a : list A) (b : list B) :
  (check_arrays eqb a b = ret tt <->
   length a = length b /\
   exists i x y,
     nth_error a i = Some x /\ nth_error b i = Some y /\ eqb x y = true) /\
  (length a <> length b <->
   check_arrays eqb a b = raise (AssertionError "Arrays are different size!")).
Proof.
  split.
  - rewrite check_arrays_accepts, existsb_combine_positions. reflexivity.
  - unfold check_arrays, assert.
    destruct (Nat.eqb_spec (length a) (length b)) as [E | E].
    + rewrite bind_ret. split; [tauto |].
      destruct (existsb _ _); discriminate.
    + split; [reflexivity | tauto].
Qed.

(** ** Images and doses *)

(** X2: [image_to_nparray] makes no profile call and returns an array of
    shape [(XSize, YSize, ZSize)] whose entry [[x, y, z]] is the stored
    integer that [GetVoxels] wrote at [[x, y]] of slice [z]. *)
Theorem image_to_nparray_contents (SAFE_MODE : bool) (image_like : Grid) :
  SAFE_MODE = false \/ 0 < XSize image_like * YSize image_like ->
  exists arr,
    image_to_nparray SAFE_MODE image_like = ([], inr arr) /\
    shape arr = (XSize image_like, YSize image_like, ZSize image_like) /\
    forall x y z,
      x < XSize image_like -> y < YSize image_like -> z < ZSize image_like ->
      item arr x y z = Fin (inject_Z (GetVoxels image_like z x y)).
Proof. intros H. exact (image_to_nparray_spec SAFE_MODE image_like H). Qed.

Lemma image_to_nparray_contents_witness :
  exists arr,
    image_to_nparray true unit_grid = ([], inr arr) /\
    shape arr = (2, 2, 2) /\
    forall x y z, x < 2 -> y < 2 -> z < 2 ->
      item arr x y z = Fin (inject_Z (GetVoxels unit_grid z x y)).
Proof.
  apply (image_to_nparray_contents true unit_grid). right. simpl. lia.
Defined.

(** X3: when the two reference doses [dose(0)] and [dose(1)] are the same
    number, [dose_to_nparray] raises [ZeroDivisionError] (after the voxels
    have been read), and so does [make_dose_for_grid] on its default
    path; no array is returned. *)
Theorem dose_to_nparray_degenerate (SAFE_MODE : bool) (dose : Dose) (d0 d1 : Q) :
  VoxelToDoseValue dose 0 = Fin d0 ->
  VoxelToDoseValue dose 1 = Fin d1 ->
  (d1 == d0)%Q ->
  SAFE_MODE = false \/ 0 < XSize (dose_grid dose) * YSize (dose_grid dose) ->
  dose_to_nparray SAFE_MODE dose = ([], inl ZeroDivisionError) /\
  make_dose_for_grid SAFE_MODE dose None = ([], inl ZeroDivisionError).
Proof.
  intros H0 H1 E Hsafe.
  destruct (image_to_nparray_spec SAFE_MODE (dose_grid dose) Hsafe)
    as (raw & Hraw & _).
  assert (Hd : dose_to_nparray SAFE_MODE dose = ([], inl ZeroDivisionError)).
  { unfold dose_to_nparray. rewrite H0, H1. cbn [fsub py_truediv].
    assert (Hz : Qeq_bool (d1 - d0) 0 = true).
    { apply Qeq_bool_iff. rewrite E. ring. }
    rewrite Hz. erewrite bind_ok; [ | exact Hraw | reflexivity ]. reflexivity. }
  split; [exact Hd |].
  unfold make_dose_for_grid. now rewrite Hd.
Qed.

Lemma dose_to_nparray_degenerate_witness :
  dose_to_nparray false flat_dose = ([], inl ZeroDivisionError) /\
  make_dose_for_grid false flat_dose None = ([], inl ZeroDivisionError).
Proof.
  apply (dose_to_nparray_degenerate false flat_dose 5 5).
  - reflexivity.
  - reflexivity.
  - reflexivity.
  - left. reflexivity.
Defined.

(** X5: an array returned by [make_dose_for_grid], on either path, holds
    no NaN. *)
Theorem make_dose_for_grid_has_no_nan
    (SAFE_MODE : bool) (dose : Dose) (image : option Grid) (result : ndarray float) :
  outcome (make_dose_for_grid SAFE_MODE dose image) = inr result ->
  forall x y z, isnan (item result x y z) = false.
Proof.
  unfold make_dose_for_grid, outcome, bind.
  destruct (match image with
            | Some img =>
                fill_in_profiles SAFE_MODE img (GetDoseProfile dose)
                  (repeat (Fin 0) (ZSize img)) feqb (fun v => v) None
            | None => dose_to_nparray SAFE_MODE dose
            end) as [t [e | arr]]; cbn [snd ret]; intros H; [discriminate |].
  inversion H; subst result. intros x y z. unfold nan_to_zero; cbn [item].
  destruct (item arr x y z); reflexivity.
Qed.

Lemma make_dose_for_grid_has_no_nan_witness :
  exists result,
    outcome (make_dose_for_grid false nan_dose (Some unit_grid)) = inr result /\
    forall x y z, isnan (item result x y z) = false.
Proof.
  eexists. split; [vm_compute; reflexivity |].
  apply (make_dose_for_grid_has_no_nan false nan_dose (Some unit_grid)).
  vm_compute. reflexivity.
Defined.

(** ** The sub-sampled mask as a whole *)

(** The calls and the entries of a sub-sampled mask, in terms of the binary
    mask it starts from. *)
Lemma subsampled_mask_items SAFE_MODE g s n :
  HasSegment s = true ->
  SAFE_MODE = false \/ 0 < ZSize g ->
  (1 < n)%Z ->
  exists mask result,
    make_segment_mask_for_structure SAFE_MODE g s = (scan_calls g, inr mask) /\
    shape mask = (XSize g, YSize g, ZSize g) /\
    (forall x y z, x < XSize g -> y < YSize g -> z < ZSize g ->
       item mask x y z =
       float_of_bool
         (GetSegmentProfile s (column_start g x y) (column_stop g x y) (ZSize g) z)) /\
    make_segment_mask_for_grid SAFE_MODE s (Some g) (PyInt n) =
      (scan_calls g ++
       flat_map (fun '(ix, iy, iz) => sub_calls g n ix iy iz)
         (np_where (np_xor (binary_dilation mask) (binary_erosion mask))),
       inr result) /\
    shape result = (XSize g, YSize g, ZSize g) /\
    forall x y z,
      item result x y z =
      fadd (if existsb (idx_eqb (x, y, z))
                 (np_where (np_xor (binary_dilation mask) (binary_erosion mask)))
            then sub_fraction s g n x y z else Fin 0)
           (float_of_bool (item (binary_erosion mask) x y z)).
Proof.
  intros Hseg Hsafe Hn.
  destruct (make_segment_mask_for_grid_spec SAFE_MODE g s n Hseg Hsafe Hn)
    as (mask & partials & Hm & Hs & Hf & Hg).
  destruct (binary_mask_scan SAFE_MODE g s Hseg Hsafe) as (mask' & Hm' & _ & Hi').
  rewrite Hm in Hm'. inversion Hm'; subst mask'. clear Hm'.
  destruct (fill_partials_spec s g n mask
              (np_xor (binary_dilation mask) (binary_erosion mask)))
    as (partials' & Hf' & Hsp & Hi).
  rewrite Hf in Hf'. inversion Hf'; subst partials'. clear Hf'.
  exists mask, (np_add_bool partials (binary_erosion mask)).
  split; [exact Hm |]. split; [exact Hs |]. split; [exact Hi' |].
  split; [exact Hg |]. split.
  - cbn [np_add_bool shape]. now rewrite Hsp.
  - intros x y z. unfold np_add_bool; cbn [item]. now rewrite Hi.
Qed.

Lemma in_shape_lt (X Y Z x y z : nat) :
  x < X -> y < Y -> z < Z -> in_shape (X, Y, Z) x y z = true.
Proof.
  intros Hx Hy Hz. unfold in_shape.
  apply Nat.ltb_lt in Hx, Hy, Hz. now rewrite Hx, Hy, Hz.
Qed.

Lemma count_true_all (l : list bool) :
  Forall (fun b => b = true) l -> count_true l = Z.of_nat (length l).
Proof.
  unfold count_true. induction 1 as [| b l Hb _ IH]; [reflexivity |].
  subst b. cbn [filter length]. lia.
Qed.

Lemma count_true_none (l : list bool) :
  Forall (fun b => b = false) l -> count_true l = 0%Z.
Proof.
  unfold count_true. induction 1 as [| b l Hb _ IH]; [reflexivity |].
  subst b. cbn [filter]. exact IH.
Qed.

Lemma responses_forall (s : Structure) (P : bool -> Prop) (cs : list ProfileCall) :
  (forall a b len i, P (GetSegmentProfile s a b len i)) ->
  Forall P (flat_map (response s) cs).
Proof.
  intros H. apply Forall_forall. intros b Hb.
  apply in_flat_map in Hb. destruct Hb as (c & _ & Hb).
  unfold response in Hb. apply in_map_iff in Hb. destruct Hb as (i & <- & _).
  apply H.
Qed.

Lemma length_sub_responses s g n ix iy iz :
  (1 < n)%Z ->
  Z.of_nat (length (flat_map (response s) (sub_calls g n ix iy iz))) = (n ^ 3)%Z.
Proof.
  intros Hn.
  rewrite (length_responses s _ (Z.to_nat n) (sub_calls_len g n ix iy iz)).
  rewrite length_sub_calls. rewrite !Nat2Z.inj_mul, Z2Nat.id by lia. lia.
Qed.

Lemma length_boundary_calls g n (l : list (nat * nat * nat)) :
  length (flat_map (fun '(ix, iy, iz) => sub_calls g n ix iy iz) l)
  = length l * (Z.to_nat n * Z.to_nat n).
Proof.
  induction l as [| [[ix iy] iz] l IH]; [reflexivity |].
  cbn [flat_map length]. rewrite length_app, length_sub_calls, IH. lia.
Qed.

(** X6: a structure whose segment profile reports every sample inside
    gives, with an integer [sub_samples > 1], a mask that is 1 at every
    voxel of the grid. *)
Theorem enclosing_structure_mask_is_one
    (SAFE_MODE : bool) (g : Grid) (s : Structure) (n : Z) :
  HasSegment s = true ->
  (forall a b len i, GetSegmentProfile s a b len i = true) ->
  SAFE_MODE = false \/ 0 < ZSize g ->
  (1 < n)%Z ->
  exists result,
    outcome (make_segment_mask_for_grid SAFE_MODE s (Some g) (PyInt n)) = inr result /\
    shape result = (XSize g, YSize g, ZSize g) /\
    forall x y z, x < XSize g -> y < YSize g -> z < ZSize g ->
      float_eq (item result x y z) (Fin 1).
Proof.
  intros Hseg Hin Hsafe Hn.
  destruct (subsampled_mask_items SAFE_MODE g s n Hseg Hsafe Hn)
    as (mask & result & _ & Hs & Hmi & Hg & Hsr & Hi).
  exists result. rewrite Hg. split; [reflexivity | split; [exact Hsr |]].
  intros x y z Hx Hy Hz. rewrite Hi.
  assert (Hvox : voxel mask x y z = true).
  { unfold voxel. rewrite Hs, (in_shape_lt _ _ _ _ _ _ Hx Hy Hz).
    rewrite (Hmi x y z Hx Hy Hz), Hin. reflexivity. }
  destruct (existsb _ _) eqn:E.
  - apply existsb_idx, in_np_where in E. destruct E as [_ Hb].
    destruct (boundary_not_eroded mask x y z Hb) as [_ He]. rewrite He.
    unfold sub_fraction. cbn [fadd float_of_bool float_eq].
    rewrite count_true_all
      by (apply responses_forall; intros; apply Hin).
    rewrite length_sub_responses by exact Hn.
    field. intros H. unfold Qeq in H. simpl in H.
    assert (0 < n ^ 3)%Z by (apply Z.pow_pos_nonneg; lia). lia.
  - assert (Hb : item (np_xor (binary_dilation mask) (binary_erosion mask)) x y z
                 = false).
    { destruct (item (np_xor (binary_dilation mask) (binary_erosion mask)) x y z)
        eqn:Hb; [| reflexivity].
      assert (Hin' : In (x, y, z)
                (np_where (np_xor (binary_dilation mask) (binary_erosion mask)))).
      { apply in_np_where. split; [| exact Hb].
        cbn [np_xor binary_dilation shape]. rewrite Hs.
        now apply in_shape_lt. }
      apply existsb_idx in Hin'. congruence. }
    unfold np_xor, binary_dilation in Hb; cbn [item] in Hb.
    rewrite Hvox in Hb. cbn [orb] in Hb.
    destruct (item (binary_erosion mask) x y z); [| discriminate].
    cbn [fadd float_of_bool float_eq]. ring.
Qed.

Lemma enclosing_structure_mask_is_one_witness :
  exists result,
    outcome (make_segment_mask_for_grid true everywhere (Some cube_grid) (PyInt 2))
      = inr result /\
    shape result = (3, 3, 3) /\
    forall x y z, x < 3 -> y < 3 -> z < 3 ->
      float_eq (item result x y z) (Fin 1).
Proof.
  apply (enclosing_structure_mask_is_one true cube_grid everywhere 2).
  - reflexivity.
  - reflexivity.
  - right. simpl. lia.
  - reflexivity.
Defined.

(** X7: a structure whose segment profile reports every sample outside
    gives an empty boundary: with an integer [sub_samples > 1] no
    refinement query is made (the calls are those of the mask scan) and
    the mask is 0 at every voxel. *)
Theorem disjoint_structure_mask_is_zero
    (SAFE_MODE : bool) (g : Grid) (s : Structure) (n : Z) :
  HasSegment s = true ->
  (forall a b len i, GetSegmentProfile s a b len i = false) ->
  SAFE_MODE = false \/ 0 < ZSize g ->
  (1 < n)%Z ->
  exists result,
    make_segment_mask_for_grid SAFE_MODE s (Some g) (PyInt n)
      = (scan_calls g, inr result) /\
    shape result = (XSize g, YSize g, ZSize g) /\
    forall x y z, x < XSize g -> y < YSize g -> z < ZSize g ->
      float_eq (item result x y z) (Fin 0).
Proof.
  intros Hseg Hout Hsafe Hn.
  destruct (subsampled_mask_items SAFE_MODE g s n Hseg Hsafe Hn)
    as (mask & result & _ & Hs & Hmi & Hg & Hsr & Hi).
  assert (Hvox : forall x y z, voxel mask x y z = false).
  { intros x y z. unfold voxel. rewrite Hs.
    destruct (in_shape (XSize g, YSize g, ZSize g) x y z) eqn:E; [| reflexivity].
    unfold in_shape in E. rewrite !andb_true_iff, !Nat.ltb_lt in E.
    destruct E as [[Hx Hy] Hz].
    rewrite (Hmi x y z Hx Hy Hz), Hout. reflexivity. }
  assert (Hero : forall x y z, item (binary_erosion mask) x y z = false).
  { intros x y z. unfold binary_erosion; cbn [item]. now rewrite Hvox. }
  assert (Hbnd : forall x y z,
             item (np_xor (binary_dilation mask) (binary_erosion mask)) x y z = false).
  { intros x y z. unfold np_xor; cbn [item]. rewrite Hero.
    unfold binary_dilation, neighbours; cbn [item].
    destruct x, y, z; rewrite !Hvox; reflexivity. }
  assert (Hnil : np_where (np_xor (binary_dilation mask) (binary_erosion mask)) = []).
  { destruct (np_where _) as [| [[x y] z] l] eqn:E; [reflexivity |].
    assert (Hin : In (x, y, z)
              (np_where (np_xor (binary_dilation mask) (binary_erosion mask))))
      by (rewrite E; now left).
    apply in_np_where in Hin. destruct Hin as [_ Hin]. rewrite Hbnd in Hin.
    discriminate. }
  rewrite Hnil in Hg, Hi. cbn [flat_map] in Hg. rewrite app_nil_r in Hg.
  exists result. split; [exact Hg | split; [exact Hsr |]].
  intros x y z _ _ _. rewrite Hi, Hero. cbn [existsb fadd float_of_bool float_eq].
  ring.
Qed.

Lemma disjoint_structure_mask_is_zero_witness :
  exists result,
    make_segment_mask_for_grid true nowhere (Some cube_grid) (PyInt 2)
      = (scan_calls cube_grid, inr result) /\
    shape result = (3, 3, 3) /\
    forall x y z, x < 3 -> y < 3 -> z < 3 ->
      float_eq (item result x y z) (Fin 0).
Proof.
  apply (disjoint_structure_mask_is_zero true cube_grid nowhere 2).
  - reflexivity.
  - reflexivity.
  - right. simpl. lia.
  - reflexivity.
Defined.

(** X8: the cost of a sub-sampled mask in collaborator calls: one call per
    grid column for the binary mask, then [sub_samples * sub_samples] calls
    for each voxel of the boundary of that mask, and none for the other
    voxels. *)
Theorem subsampled_mask_call_count
    (SAFE_MODE : bool) (g : Grid) (s : Structure) (n : Z) :
  HasSegment s = true ->
  SAFE_MODE = false \/ 0 < ZSize g ->
  (1 < n)%Z ->
  exists mask,
    outcome (make_segment_mask_for_structure SAFE_MODE g s) = inr mask /\
    length (calls (make_segment_mask_for_grid SAFE_MODE s (Some g) (PyInt n))) =
      XSize g * YSize g +
      length (np_where (np_xor (binary_dilation mask) (binary_erosion mask)))
      * (Z.to_nat n * Z.to_nat n).
Proof.
  intros Hseg Hsafe Hn.
  destruct (subsampled_mask_items SAFE_MODE g s n Hseg Hsafe Hn)
    as (mask & result & Hm & _ & _ & Hg & _).
  exists mask. rewrite Hm, Hg. split; [reflexivity |].
  unfold calls; cbn [fst].
  now rewrite length_app, scan_calls_length, length_boundary_calls.
Qed.

Lemma subsampled_mask_call_count_witness :
  exists mask,
    outcome (make_segment_mask_for_structure false cube_grid everywhere) = inr mask /\
    length (calls (make_segment_mask_for_grid false everywhere (Some cube_grid)
                     (PyInt 2))) =
      3 * 3 +
      length (np_where (np_xor (binary_dilation mask) (binary_erosion mask)))
      * (Z.to_nat 2 * Z.to_nat 2).
Proof.
  apply (subsampled_mask_call_count false cube_grid everywhere 2).
  - reflexivity.
  - left. reflexivity.
  - reflexivity.
Defined.

(** ** Voxel positions *)

Lemma length_all_indices (shp : list nat) :
  length (all_indices shp) = volume shp.
Proof.
  induction shp as [| n ns IH]; [reflexivity |].
  cbn [all_indices volume].
  rewrite (length_product (@cons nat) (seq 0 n) (all_indices ns)).
  now rewrite length_seq, IH.
Qed.

Lemma ravel_lt (shp idx : list nat) :
  in_range shp idx = true -> ravel shp idx < volume shp.
Proof.
  revert idx. induction shp as [| n ns IH]; intros [| i rest] H;
    try discriminate; cbn [ravel volume]; [lia |].
  cbn [in_range] in H. apply andb_prop in H. destruct H as [Hi Hr].
  apply Nat.ltb_lt in Hi. specialize (IH rest Hr). nia.
Qed.

Lemma nth_error_all_indices (shp idx : list nat) :
  in_range shp idx = true ->
  nth_error (all_indices shp) (ravel shp idx) = Some idx.
Proof.
  revert idx. induction shp as [| n ns IH]; intros [| i rest] H;
    try discriminate; [reflexivity |].
  cbn [in_range] in H. apply andb_prop in H. destruct H as [Hi Hr].
  apply Nat.ltb_lt in Hi. cbn [all_indices ravel].
  apply (nth_error_product (@cons nat) (all_indices ns)
           (volume ns) (ravel ns rest) rest (length_all_indices ns) (IH rest Hr)
           (seq 0 n) i i).
  rewrite nth_error_seq. destruct (Nat.ltb_spec i n); [reflexivity | lia].
Qed.

(** Reading a tabulated array gives back the tabulated function. *)
Lemma tget_tabulate (shp : list nat) (f : list nat -> Q) (idx : list nat) :
  in_range shp idx = true -> tget (tabulate shp f) idx = f idx.
Proof.
  intros H. unfold tget, tabulate; cbn [dims flat].
  pose proof (nth_error_all_indices shp idx H) as Hn.
  apply (map_nth_error f) in Hn.
  now apply nth_error_nth with (d := 0%Q) in Hn.
Qed.

Lemma nth_concat_uniform {A} (n : nat) (d : A) :
  forall (ls : list (list A)) k r,
    Forall (fun l => length l = n) ls -> r < n ->
    nth (k * n + r) (concat ls) d = nth r (nth k ls []) d.
Proof.
  induction ls as [| l ls IH]; intros k r Hall Hr.
  - simpl. destruct (k * n + r), k, r; reflexivity.
  - inversion Hall as [| ? ? Hl Hls]; subst. cbn [concat].
    destruct k as [| k].
    + cbn [nth]. rewrite app_nth1 by (simpl; lia). reflexivity.
    + rewrite app_nth2 by (simpl; lia).
      replace (S k * length l + r - length l) with (k * length l + r)
        by (simpl; lia).
      cbn [nth]. now apply IH.
Qed.

(** The two ends of an axis: its first element is the start and its last
    one the stop, which [np.linspace] stores as given. *)
Lemma np_linspace_first (a b : Q) (n : nat) :
  0 < n -> (nth 0 (np_linspace a b n) 0 == a)%Q.
Proof.
  intros Hn. unfold np_linspace. rewrite nth_map_seq by exact Hn.
  destruct (Nat.ltb_spec 1 n) as [H1 | H1]; cbn [andb].
  - destruct (Nat.eqb_spec 0 (n - 1)) as [E | _]; [lia |]. simpl. ring.
  - simpl. ring.
Qed.

Lemma np_linspace_last (a r : Q) (n : nat) :
  0 < n ->
  (nth (n - 1) (np_linspace a (a + inject_Z (Z.of_nat n - 1) * r) n) 0
   == a + inject_Z (Z.of_nat n - 1) * r)%Q.
Proof.
  intros Hn. unfold np_linspace. rewrite nth_map_seq by lia.
  destruct (Nat.ltb_spec 1 n) as [H1 | H1]; cbn [andb].
  - rewrite Nat.eqb_refl. reflexivity.
  - replace n with 1 by lia. simpl. ring.
Qed.

Lemma voxel_axes_lengths g :
  map (@length Q) (voxel_axes g) = [XSize g; YSize g; ZSize g].
Proof. unfold voxel_axes. cbn [map]. now rewrite !length_np_linspace. Qed.

Lemma meshgrid_of_axes g :
  np_meshgrid_ij (voxel_axes g) =
  map (fun d =>
         tabulate [XSize g; YSize g; ZSize g]
           (fun idx => nth (nth d idx O) (nth d (voxel_axes g) []) 0%Q))
      [0; 1; 2].
Proof. unfold np_meshgrid_ij. now rewrite voxel_axes_lengths. Qed.

Lemma stacked_flat g :
  flat (stacked_axes g) =
  concat (map (fun d =>
                 flat (tabulate [XSize g; YSize g; ZSize g]
                         (fun idx => nth (nth d idx O) (nth d (voxel_axes g) []) 0%Q)))
              [0; 1; 2]).
Proof.
  unfold stacked_axes, np_vstack; cbn [flat].
  now rewrite meshgrid_of_axes, map_map.
Qed.

Lemma stacked_length g :
  length (flat (np_vstack (np_meshgrid_ij (voxel_axes g))))
  = volume [3; XSize g; YSize g; ZSize g].
Proof.
  change (flat (np_vstack (np_meshgrid_ij (voxel_axes g))))
    with (flat (stacked_axes g)).
  rewrite stacked_flat. cbn [map concat].
  rewrite !length_app. unfold tabulate; cbn [flat length].
  rewrite !length_map, !length_all_indices. cbn [volume]. lia.
Qed.

Ltac in_range_tac :=
  cbn [in_range];
  repeat match goal with
         | |- context [?i <? ?n] =>
             let H := fresh in
             assert (H : (i <? n) = true) by (apply Nat.ltb_lt; lia);
             rewrite H; clear H
         end;
  reflexivity.

Lemma dims_assembled g :
  dims (assembled_points g) = [XSize g; YSize g; ZSize g; 3].
Proof. reflexivity. Qed.

(** The transpositions of [compute_voxel_points_matrix] put coordinate
    [d] of the voxel [(x, y, z)] at index [[x, y, z, d]]. *)
Lemma assembled_entry g x y z d :
  x < XSize g -> y < YSize g -> z < ZSize g -> d < 3 ->
  tget (assembled_points g) [x; y; z; d]
  = nth (nth d [x; y; z] O) (nth d (voxel_axes g) []) 0%Q.
Proof.
  intros Hx Hy Hz Hd.
  unfold assembled_points, np_swapaxes.
  change (swap_entries 0 2 (dims (np_T (stacked_axes g))))
    with [XSize g; YSize g; ZSize g; 3].
  rewrite tget_tabulate by in_range_tac.
  change (swap_entries 0 2 [x; y; z; d]) with [z; y; x; d].
  unfold np_T.
  change (rev (dims (stacked_axes g))) with [ZSize g; YSize g; XSize g; 3].
  rewrite tget_tabulate by in_range_tac.
  change (rev [z; y; x; d]) with [d; x; y; z].
  unfold tget at 1.
  change (ravel (dims (stacked_axes g)) [d; x; y; z])
    with (d * volume [XSize g; YSize g; ZSize g]
          + ravel [XSize g; YSize g; ZSize g] [x; y; z]).
  rewrite stacked_flat.
  rewrite (nth_concat_uniform (volume [XSize g; YSize g; ZSize g])).
  - assert (Hr : in_range [XSize g; YSize g; ZSize g] [x; y; z] = true)
      by in_range_tac.
    destruct d as [| [| [| d]]]; [ | | | lia ]; cbn [map nth];
      exact (tget_tabulate [XSize g; YSize g; ZSize g] _ [x; y; z] Hr).
  - repeat constructor; unfold tabulate; cbn [flat];
      now rewrite length_map, length_all_indices.
  - apply ravel_lt. in_range_tac.
Qed.

Lemma compute_voxel_points_matrix_unfold g :
  compute_voxel_points_matrix g =
  (first <~ getitem3 (assembled_points g) 0 0 0 ;
   _ <~ check (all_equal [vx (Origin g); vy (Origin g); vz (Origin g)] first) ;
   last <~ getitem3_last (assembled_points g) ;
   _ <~ check (all_equal
                 [(vx (Origin g) + inject_Z (Z.of_nat (XSize g) - 1) * XRes g)%Q;
                  (vy (Origin g) + inject_Z (Z.of_nat (YSize g) - 1) * YRes g)%Q;
                  (vz (Origin g) + inject_Z (Z.of_nat (ZSize g) - 1) * ZRes g)%Q]
                 last) ;
   inr (assembled_points g)).
Proof.
  unfold compute_voxel_points_matrix. cbv zeta. cbn [map seq nth].
  fold (voxel_axes g). unfold np_reshape.
  rewrite stacked_length, Nat.eqb_refl. reflexivity.
Qed.

Lemma getitem3_last_eq (a : tensor Q) (X Y Z : nat) (rest : list nat) :
  dims a = X :: Y :: Z :: rest -> 0 < X -> 0 < Y -> 0 < Z ->
  getitem3_last a = getitem3 a (X - 1) (Y - 1) (Z - 1).
Proof.
  intros H HX HY HZ. unfold getitem3_last. rewrite H.
  destruct X, Y, Z; try lia. cbn [Nat.sub]. now rewrite !Nat.sub_0_r.
Qed.

Lemma compute_voxel_points_matrix_returns (g : Grid) :
  0 < XSize g -> 0 < YSize g -> 0 < ZSize g ->
  compute_voxel_points_matrix g = inr (assembled_points g).
Proof.
  intros HX HY HZ.
  rewrite compute_voxel_points_matrix_unfold.
  rewrite (getitem3_last_eq (assembled_points g) _ _ _ _ (dims_assembled g) HX HY HZ).
  unfold getitem3. rewrite dims_assembled. cbn [firstn nth seq map].
  assert (H0 : in_range [XSize g; YSize g; ZSize g] [0; 0; 0] = true)
    by in_range_tac.
  assert (H1 : in_range [XSize g; YSize g; ZSize g]
                 [XSize g - 1; YSize g - 1; ZSize g - 1] = true)
    by in_range_tac.
  rewrite H0, H1. cbn [and_then].
  rewrite !assembled_entry by lia. unfold voxel_axes. cbn [nth].
  assert (C1 : all_equal [vx (Origin g); vy (Origin g); vz (Origin g)]
                 [nth 0 (np_linspace (vx (Origin g))
                           (vx (Origin g) + inject_Z (Z.of_nat (XSize g) - 1) * XRes g)
                           (XSize g)) 0%Q;
                  nth 0 (np_linspace (vy (Origin g))
                           (vy (Origin g) + inject_Z (Z.of_nat (YSize g) - 1) * YRes g)
                           (YSize g)) 0%Q;
                  nth 0 (np_linspace (vz (Origin g))
                           (vz (Origin g) + inject_Z (Z.of_nat (ZSize g) - 1) * ZRes g)
                           (ZSize g)) 0%Q] = true).
  { unfold all_equal. cbn [combine forallb].
    rewrite !andb_true_iff. repeat split;
      apply Qeq_bool_iff; symmetry; now apply np_linspace_first. }
  rewrite C1. cbn [check and_then].
  assert (C2 : all_equal
                 [(vx (Origin g) + inject_Z (Z.of_nat (XSize g) - 1) * XRes g)%Q;
                  (vy (Origin g) + inject_Z (Z.of_nat (YSize g) - 1) * YRes g)%Q;
                  (vz (Origin g) + inject_Z (Z.of_nat (ZSize g) - 1) * ZRes g)%Q]
                 [nth (XSize g - 1)
                    (np_linspace (vx (Origin g))
                       (vx (Origin g) + inject_Z (Z.of_nat (XSize g) - 1) * XRes g)
                       (XSize g)) 0%Q;
                  nth (YSize g - 1)
                    (np_linspace (vy (Origin g))
                       (vy (Origin g) + inject_Z (Z.of_nat (YSize g) - 1) * YRes g)
                       (YSize g)) 0%Q;
                  nth (ZSize g - 1)
                    (np_linspace (vz (Origin g))
                       (vz (Origin g) + inject_Z (Z.of_nat (ZSize g) - 1) * ZRes g)
                       (ZSize g)) 0%Q] = true).
  { unfold all_equal. cbn [combine forallb].
    rewrite !andb_true_iff. repeat split;
      apply Qeq_bool_iff; symmetry; now apply np_linspace_last. }
  rewrite C2. reflexivity.
Qed.

(** X9: [compute_voxel_points_matrix] is indexed like [[x, y, z]].  On a
    grid with at least one voxel along each axis both of its assertions
    pass, and the array it returns has shape [(XSize, YSize, ZSize, 3)] and
    holds at [[x, y, z]] the vector made of element [x] of the x axis,
    element [y] of the y axis and element [z] of the z axis, the axes being
    the three arrays that [np.linspace] gives it.  The point of the first
    voxel is the origin and the point of the last voxel is the far corner
    [origin + (shape - 1) * resolution], as the assertions check. *)
Theorem compute_voxel_points_matrix_positions (g : Grid) :
  0 < XSize g -> 0 < YSize g -> 0 < ZSize g ->
  exists points,
    compute_voxel_points_matrix g = inr points /\
    dims points = [XSize g; YSize g; ZSize g; 3] /\
    (forall x y z, x < XSize g -> y < YSize g -> z < ZSize g ->
       voxel_point points x y z =
       mkVVector
         (nth x (np_linspace (vx (Origin g))
                   (vx (Origin g) + inject_Z (Z.of_nat (XSize g) - 1) * XRes g)
                   (XSize g)) 0%Q)
         (nth y (np_linspace (vy (Origin g))
                   (vy (Origin g) + inject_Z (Z.of_nat (YSize g) - 1) * YRes g)
                   (YSize g)) 0%Q)
         (nth z (np_linspace (vz (Origin g))
                   (vz (Origin g) + inject_Z (Z.of_nat (ZSize g) - 1) * ZRes g)
                   (ZSize g)) 0%Q)) /\
    veq (voxel_point points 0 0 0) (Origin g) /\
    veq (voxel_point points (XSize g - 1) (YSize g - 1) (ZSize g - 1))
        (mkVVector (vx (Origin g) + inject_Z (Z.of_nat (XSize g) - 1) * XRes g)
                   (vy (Origin g) + inject_Z (Z.of_nat (YSize g) - 1) * YRes g)
                   (vz (Origin g) + inject_Z (Z.of_nat (ZSize g) - 1) * ZRes g)).
Proof.
  intros HX HY HZ. exists (assembled_points g).
  split; [now apply compute_voxel_points_matrix_returns |].
  split; [apply dims_assembled |].
  assert (Hentry : forall x y z, x < XSize g -> y < YSize g -> z < ZSize g ->
            voxel_point (assembled_points g) x y z =
            mkVVector
              (nth x (nth 0 (voxel_axes g) []) 0%Q)
              (nth y (nth 1 (voxel_axes g) []) 0%Q)
              (nth z (nth 2 (voxel_axes g) []) 0%Q)).
  { intros x y z Hx Hy Hz. unfold voxel_point.
    rewrite !assembled_entry by lia. reflexivity. }
  split; [exact Hentry |].
  split.
  - rewrite Hentry by lia. unfold voxel_axes, veq. cbn [nth vx vy vz].
    repeat split; now apply np_linspace_first.
  - rewrite Hentry by lia. unfold voxel_axes, veq. cbn [nth vx vy vz].
    repeat split; now apply np_linspace_last.
Qed.

(** On the 3 x 3 x 3 grid of unit voxels, where the point of voxel
    [(1, 2, 0)] is [(1, 2, 0)]. *)
Lemma compute_voxel_points_matrix_positions_witness :
  exists points,
    compute_voxel_points_matrix cube_grid = inr points /\
    dims points = [3; 3; 3; 3] /\
    veq (voxel_point points 1 2 0) (mkVVector 1 2 0) /\
    veq (voxel_point points 0 0 0) (Origin cube_grid) /\
    veq (voxel_point points 2 2 2) (mkVVector 2 2 2).
Proof.
  destruct (compute_voxel_points_matrix_positions cube_grid)
    as (points & Hp & Hd & He & H0 & H1); try (simpl; lia).
  exists points. split; [exact Hp |]. split; [exact Hd |].
  split; [| split].
  - rewrite He by (simpl; lia). repeat split; vm_compute; reflexivity.
  - exact H0.
  - destruct H1 as (A & B & C). repeat split; cbn [vx vy vz] in *.
    + rewrite A. reflexivity.
    + rewrite B. reflexivity.
    + rewrite C. reflexivity.
Defined.

(** X10: on a grid that has no voxel along one of its axes,
    [compute_voxel_points_matrix] fails with [IndexError]: its first
    assertion reads the point of voxel [(0, 0, 0)], which does not
    exist. *)
Theorem compute_voxel_points_matrix_empty_grid (g : Grid) :
  XSize g = 0 \/ YSize g = 0 \/ ZSize g = 0 ->
  compute_voxel_points_matrix g = inl IndexError.
Proof.
  intros H. rewrite compute_voxel_points_matrix_unfold.
  unfold getitem3 at 1. rewrite dims_assembled. cbn [firstn in_range].
  destruct H as [-> | [-> | ->]]; cbn [Nat.ltb Nat.leb andb];
    rewrite ?andb_false_r; reflexivity.
Qed.

Lemma compute_voxel_points_matrix_empty_grid_witness :
  compute_voxel_points_matrix flat_grid = inl IndexError.
Proof.
  apply (compute_voxel_points_matrix_empty_grid flat_grid).
  right. left. reflexivity.
Defined.

(** ** Fluence *)

Lemma feqb_Fin_iff (a : float) (q : Q) :
  feqb a (Fin q) = true <-> float_eq a (Fin q).
Proof.
  destruct a as [| p]; simpl.
  - split; [discriminate | contradiction].
  - apply Qeq_bool_iff.
Qed.

Lemma feqb_Fin_false (a : float) (q : Q) :
  feqb a (Fin q) = false <-> ~ float_eq a (Fin q).
Proof.
  rewrite <- feqb_Fin_iff. destruct (feqb a (Fin q)); split; intros H;
    try reflexivity; try discriminate; try (intros H'; discriminate).
  exfalso. now apply H.
Qed.

Lemma fold_copy_row {A} (f : nat -> nat -> A) (i : nat) :
  forall n k (buf : matrix A),
    let r := fold_left (fun buf j => set_entry buf i j (f i j)) (seq k n) buf in
    rows r = rows buf /\ cols r = cols buf /\
    forall i' j',
      entry r i' j' =
      if (i' =? i) && (k <=? j') && (j' <? k + n) then f i j' else entry buf i' j'.
Proof.
  induction n as [| n IH]; intros k buf; cbn zeta.
  - cbn [seq fold_left]. repeat split. intros i' j'.
    destruct (i' =? i), (Nat.leb_spec k j'), (Nat.ltb_spec j' (k + 0));
      cbn [andb]; try reflexivity; lia.
  - cbn [seq fold_left].
    destruct (IH (S k) (set_entry buf i k (f i k))) as (Hr & Hc & He).
    split; [exact Hr | split; [exact Hc |]].
    intros i' j'. rewrite He. unfold set_entry; cbn [entry].
    destruct (Nat.eqb_spec i' i), (Nat.leb_spec (S k) j'),
      (Nat.ltb_spec j' (S k + n)), (Nat.leb_spec k j'),
      (Nat.ltb_spec j' (k + S n)), (Nat.eqb_spec j' k);
      cbn [andb]; subst; try reflexivity; lia.
Qed.

Lemma fold_copy_rows {A} (f : nat -> nat -> A) (m : nat) :
  forall n k (buf : matrix A),
    let r :=
      fold_left
        (fun buf i => fold_left (fun buf j => set_entry buf i j (f i j)) (seq 0 m) buf)
        (seq k n) buf in
    rows r = rows buf /\ cols r = cols buf /\
    forall i' j',
      entry r i' j' =
      if (k <=? i') && (i' <? k + n) && (j' <? m) then f i' j' else entry buf i' j'.
Proof.
  induction n as [| n IH]; intros k buf; cbn zeta.
  - cbn [seq fold_left]. repeat split. intros i' j'.
    destruct (Nat.leb_spec k i'), (Nat.ltb_spec i' (k + 0));
      cbn [andb]; try reflexivity; lia.
  - cbn [seq fold_left].
    destruct (fold_copy_row f k m 0 buf) as (Hr1 & Hc1 & He1).
    destruct (IH (S k)
                (fold_left (fun buf j => set_entry buf k j (f k j)) (seq 0 m) buf))
      as (Hr & Hc & He).
    split; [now rewrite Hr | split; [now rewrite Hc |]].
    intros i' j'. rewrite He, He1.
    destruct (Nat.eqb_spec i' k), (Nat.leb_spec (S k) i'),
      (Nat.ltb_spec i' (S k + n)), (Nat.leb_spec k i'),
      (Nat.ltb_spec i' (k + S n)), (Nat.ltb_spec j' m),
      (Nat.leb_spec 0 j'), (Nat.ltb_spec j' (0 + m));
      cbn [andb]; subst; try reflexivity; lia.
Qed.

(** X13: the outcome of [set_fluence_nparray] in every case.  It returns
    only if the beamlet size is 2.5, the fluence map is square and the
    first control point has collimator angle 0; otherwise it fails at the
    first of these checks that does not hold, in this order, and a beam
    without control points is refused by the runtime after the first two
    checks. *)
Theorem set_fluence_nparray_guards
    (to_Single : float -> float)
    (beam : Beam) (shaped_fluence : matrix float) (beamlet_size_mm : float) :
  match set_fluence_nparray to_Single beam shaped_fluence beamlet_size_mm with
  | inr _ =>
      float_eq beamlet_size_mm (Fin (5 # 2)) /\
      rows shaped_fluence = cols shaped_fluence /\
      exists angle rest,
        ControlPoints beam = angle :: rest /\ float_eq angle (Fin 0)
  | inl e =>
      (~ float_eq beamlet_size_mm (Fin (5 # 2)) /\
       e = Raised (AssertionError
                     "beamlet sizes of other than 2.5 mm are not implemented")) \/
      (float_eq beamlet_size_mm (Fin (5 # 2)) /\
       rows shaped_fluence <> cols shaped_fluence /\
       e = Raised (AssertionError "non-square fluence not implemented")) \/
      (float_eq beamlet_size_mm (Fin (5 # 2)) /\
       rows shaped_fluence = cols shaped_fluence /\
       ControlPoints beam = [] /\
       e = Raised (Exception "ArgumentOutOfRangeException")) \/
      (float_eq beamlet_size_mm (Fin (5 # 2)) /\
       rows shaped_fluence = cols shaped_fluence /\
       (exists angle rest,
          ControlPoints beam = angle :: rest /\ ~ float_eq angle (Fin 0)) /\
       e = Raised (AssertionError "non-zero collimator angle not implemented"))
  end.
Proof.
  unfold set_fluence_nparray, check_msg.
  destruct (feqb beamlet_size_mm (Fin (5 # 2))) eqn:Hb; cbn [and_then].
  2:{ left. split; [now apply feqb_Fin_false | reflexivity]. }
  apply feqb_Fin_iff in Hb.
  destruct (Nat.eqb_spec (rows shaped_fluence) (cols shaped_fluence)) as [Hsq | Hsq];
    cbn [and_then].
  2:{ right. left. auto. }
  destruct (ControlPoints beam) as [| angle rest] eqn:Hcp; cbn [and_then].
  { right. right. left. auto. }
  destruct (feqb angle (Fin 0)) eqn:Ha; cbn [and_then].
  - apply feqb_Fin_iff in Ha. split; [exact Hb | split; [exact Hsq |]].
    exists angle, rest. auto.
  - apply feqb_Fin_false in Ha. right. right. right.
    split; [exact Hb | split; [exact Hsq | split; [| reflexivity]]].
    exists angle, rest. auto.
Qed.

(** X14: when its checks pass and the entries of the map are in the range
    of a single, [set_fluence_nparray] leaves the control points alone and
    stores a fluence whose buffer has the shape of the given [n x n] map and
    holds, at [[i, j]], the entry [[i, j]] of the map converted to single
    precision; its origins are [x_origin = -(n - 1) * 2.5 / 2] and
    [y_origin = +(n - 1) * 2.5 / 2], so that the beamlet centres
    [x_origin + i * 2.5], [i < n], are placed symmetrically about 0. *)
Theorem set_fluence_nparray_centred
    (to_Single : float -> float)
    (beam : Beam) (shaped_fluence : matrix float) (beamlet_size_mm angle : float)
    (rest : list float) :
  float_eq beamlet_size_mm (Fin (5 # 2)) ->
  rows shaped_fluence = cols shaped_fluence ->
  ControlPoints beam = angle :: rest ->
  float_eq angle (Fin 0) ->
  (forall i j, i < rows shaped_fluence -> j < rows shaped_fluence ->
     in_single_range (entry shaped_fluence i j)) ->
  exists fluence x_origin y_origin,
    set_fluence_nparray to_Single beam shaped_fluence beamlet_size_mm =
      inr (mkBeam (ControlPoints beam) (Some fluence)) /\
    rows (fluence_buffer fluence) = rows shaped_fluence /\
    cols (fluence_buffer fluence) = rows shaped_fluence /\
    (forall i j, i < rows shaped_fluence -> j < rows shaped_fluence ->
       entry (fluence_buffer fluence) i j = to_Single (entry shaped_fluence i j)) /\
    XOrigin fluence = Fin x_origin /\
    YOrigin fluence = Fin y_origin /\
    (x_origin == - (inject_Z (Z.of_nat (rows shaped_fluence)) - 1) * (5 # 4))%Q /\
    (y_origin == - x_origin)%Q /\
    (x_origin + (inject_Z (Z.of_nat (rows shaped_fluence)) - 1) * (5 # 2)
     == - x_origin)%Q.
Proof.
  intros Hb Hsq Hcp Ha _.
  destruct beamlet_size_mm as [| b]; [contradiction |]. cbn [float_eq] in Hb.
  unfold set_fluence_nparray, check_msg.
  rewrite (proj2 (feqb_Fin_iff (Fin b) (5 # 2)) Hb). cbn [and_then].
  rewrite (proj2 (Nat.eqb_eq _ _) Hsq). cbn [and_then].
  rewrite Hcp. cbn [and_then].
  rewrite (proj2 (feqb_Fin_iff angle 0) Ha). cbn [and_then fmul fdiv2].
  destruct (fold_copy_rows (fun i j => to_Single (entry shaped_fluence i j))
              (cols shaped_fluence) (rows shaped_fluence) 0
              (mk_matrix (rows shaped_fluence) (cols shaped_fluence)
                 (fun _ _ => Fin 0))) as (Hr & Hc & He).
  eexists. eexists. eexists.
  split; [reflexivity |]. cbn [fluence_buffer XOrigin YOrigin].
  split; [exact Hr |]. split; [rewrite Hc; cbn [cols]; now rewrite Hsq |].
  split.
  { intros i j Hi Hj. rewrite He.
    destruct (Nat.leb_spec 0 i), (Nat.ltb_spec i (0 + rows shaped_fluence)),
      (Nat.ltb_spec j (cols shaped_fluence)); cbn [andb]; try reflexivity; lia. }
  split; [reflexivity |]. split; [reflexivity |].
  assert (Hm : (inject_Z (Z.of_nat (rows shaped_fluence) - 1)
                == inject_Z (Z.of_nat (rows shaped_fluence)) - 1)%Q).
  { unfold Z.sub. rewrite inject_Z_plus. reflexivity. }
  rewrite <- Hsq, Hb, Hm.
  repeat split; field.
Qed.

Lemma set_fluence_nparray_centred_witness :
  exists fluence x_origin y_origin,
    set_fluence_nparray exact_to_Single plain_beam small_fluence (Fin (5 # 2)) =
      inr (mkBeam (ControlPoints plain_beam) (Some fluence)) /\
    rows (fluence_buffer fluence) = rows small_fluence /\
    cols (fluence_buffer fluence) = rows small_fluence /\
    (forall i j, i < rows small_fluence -> j < rows small_fluence ->
       entry (fluence_buffer fluence) i j
       = exact_to_Single (entry small_fluence i j)) /\
    XOrigin fluence = Fin x_origin /\
    YOrigin fluence = Fin y_origin /\
    (x_origin == - (inject_Z (Z.of_nat (rows small_fluence)) - 1) * (5 # 4))%Q /\
    (y_origin == - x_origin)%Q /\
    (x_origin + (inject_Z (Z.of_nat (rows small_fluence)) - 1) * (5 # 2)
     == - x_origin)%Q.
Proof.
  apply (set_fluence_nparray_centred exact_to_Single plain_beam small_fluence
           (Fin (5 # 2)) (Fin 0) []).
  - reflexivity.
  - reflexivity.
  - reflexivity.
  - reflexivity.
  - intros i j Hi Hj. cbn [small_fluence rows] in Hi, Hj.
    destruct i as [| [| i]]; [ | | lia];
      (destruct j as [| [| j]]; [ | | lia]);
      split; vm_compute; discriminate.
Defined.

(** ** Validation of a mask *)

Lemma truthy_float_of_bool (b : bool) : truthy (float_of_bool b) = b.
Proof. destruct b; reflexivity. Qed.

Lemma voxel_as_float (b : ndarray bool) x y z :
  voxel (as_float b) x y z = in_shape (shape b) x y z && item b x y z.
Proof. unfold voxel, as_float; cbn [shape item]. now rewrite truthy_float_of_bool. Qed.

Lemma dilation_extensive (a : ndarray float) x y z :
  voxel a x y z = true -> item (binary_dilation a) x y z = true.
Proof. intros H. unfold binary_dilation; cbn [item]. now rewrite H. Qed.

Lemma dilation_of_empty (a : ndarray float) :
  (forall x y z, voxel a x y z = false) ->
  forall x y z, item (binary_dilation a) x y z = false.
Proof.
  intros H x y z. unfold binary_dilation, neighbours; cbn [item].
  destruct x, y, z; rewrite !H; reflexivity.
Qed.

Lemma shape_dilate_more (k : nat) :
  forall b, shape (dilate_more k b) = shape b.
Proof. induction k as [| k IH]; intros b; [reflexivity |]. cbn [dilate_more]. now rewrite IH. Qed.

Lemma dilate_more_extensive (k : nat) :
  forall b x y z,
    in_shape (shape b) x y z = true -> item b x y z = true ->
    item (dilate_more k b) x y z = true.
Proof.
  induction k as [| k IH]; intros b x y z Hs Hb; [exact Hb |].
  cbn [dilate_more]. apply IH; [exact Hs |].
  apply dilation_extensive. rewrite voxel_as_float. now rewrite Hs, Hb.
Qed.

Lemma dilate_more_empty (k : nat) :
  forall b, (forall x y z, item b x y z = false) ->
  forall x y z, item (dilate_more k b) x y z = false.
Proof.
  induction k as [| k IH]; intros b Hb x y z; [apply Hb |].
  cbn [dilate_more]. apply IH. apply dilation_of_empty.
  intros x' y' z'. rewrite voxel_as_float, Hb. apply andb_false_r.
Qed.

Lemma np_where_nil (b : ndarray bool) :
  (forall x y z, item b x y z = false) -> np_where b = [].
Proof.
  intros H. destruct (np_where b) as [| [[x y] z] l] eqn:E; [reflexivity |].
  assert (Hin : In (x, y, z) (np_where b)) by (rewrite E; now left).
  apply in_np_where in Hin. destruct Hin as [_ Hin]. rewrite H in Hin.
  discriminate.
Qed.

(** The region of an empty mask is empty; the region of any mask holds the
    voxels the mask sets. *)
Lemma validation_region_empty mask margin :
  (forall x y z, voxel mask x y z = false) -> validation_region mask margin = [].
Proof.
  intros H. unfold validation_region, binary_dilation_iterations.
  apply np_where_nil. apply dilate_more_empty. now apply dilation_of_empty.
Qed.

Lemma validation_region_holds_mask mask margin x y z :
  voxel mask x y z = true -> In (x, y, z) (validation_region mask margin).
Proof.
  intros H. unfold validation_region, binary_dilation_iterations.
  assert (Hs : in_shape (shape mask) x y z = true).
  { unfold voxel in H. now apply andb_prop in H. }
  apply in_np_where. rewrite shape_dilate_more. split; [exact Hs |].
  apply dilate_more_extensive; [exact Hs |]. now apply dilation_extensive.
Qed.

Lemma validation_region_in_shape mask margin x y z :
  In (x, y, z) (validation_region mask margin) ->
  in_shape (shape mask) x y z = true.
Proof.
  unfold validation_region, binary_dilation_iterations. intros H.
  apply in_np_where in H. rewrite shape_dilate_more in H. tauto.
Qed.

Lemma collect_map {A B} (f : A -> result B) (h : A -> B) (l : list A) :
  (forall a, In a l -> f a = inr (h a)) -> collect f l = inr (map h l).
Proof.
  induction l as [| a l IH]; intros H; [reflexivity |].
  cbn [collect map]. rewrite (H a (or_introl eq_refl)). cbn [and_then].
  rewrite IH by (intros b Hb; apply H; now right). reflexivity.
Qed.

Lemma in_range_of_in_shape (X Y Z x y z : nat) :
  in_shape (X, Y, Z) x y z = true -> in_range [X; Y; Z] [x; y; z] = true.
Proof.
  unfold in_shape. cbn [in_range]. intros H.
  apply andb_prop in H. destruct H as [H Hz].
  apply andb_prop in H. destruct H as [Hx Hy].
  now rewrite Hx, Hy, Hz.
Qed.

Lemma mismatch_loop (inside : VVector -> bool) (mask : ndarray float)
    (pts : tensor Q) :
  forall (idx : list (nat * nat * nat)) (c : Z),
    fold_left
      (fun acc '(p, m) =>
         count <~ acc ;
         inside_p <~ tester inside p ;
         inr (if negb (feqb m (float_of_bool inside_p)) then (count + 1)%Z
              else count))
      (combine
         (map (fun '(x, y, z) => map (fun d => tget pts [x; y; z; d]) (seq 0 3)) idx)
         (map (fun '(x, y, z) => item mask x y z) idx))
      (inr c)
    = inr (c + Z.of_nat (length (filter (mismatch inside mask pts) idx)))%Z.
Proof.
  induction idx as [| [[x y] z] idx IH]; intros c.
  - simpl. now rewrite Z.add_0_r.
  - cbn [map combine fold_left seq tester and_then filter].
    change (mkVVector (tget pts [x; y; z; 0]) (tget pts [x; y; z; 1])
              (tget pts [x; y; z; 2]))
      with (voxel_point pts x y z).
    change (negb (feqb (item mask x y z)
                    (float_of_bool (inside (voxel_point pts x y z)))))
      with (mismatch inside mask pts (x, y, z)).
    destruct (mismatch inside mask pts (x, y, z)).
    + rewrite IH. cbn [length]. f_equal. lia.
    + apply IH.
Qed.

(** What [validate_structure_mask] computes when the points array covers
    the mask. *)
Lemma validate_closed_form (inside : VVector -> bool) (mask : ndarray float)
    (pts : tensor Q) (margin : positive) (X Y Z : nat) :
  shape mask = (X, Y, Z) ->
  dims pts = [X; Y; Z; 3] ->
  validate_structure_mask inside mask pts margin =
  if length (validation_region mask margin) =? 0
  then inl (Raised ZeroDivisionError)
  else check_msg
         (Qle_bool
            (inject_Z (mismatches inside mask pts margin)
             / inject_Z (Z.of_nat (length (validation_region mask margin))) * 100)
            (5 # 100))
         "Masking error greater than 0.05 %".
Proof.
  intros Hs Hd. unfold validate_structure_mask, getitem_where.
  fold (validation_region mask margin).
  rewrite Hd at 1. cbn [length Nat.ltb Nat.leb].
  rewrite (collect_map _
             (fun '(x, y, z) => map (fun d => tget pts [x; y; z; d]) (seq 0 3))).
  - cbn [and_then]. rewrite mismatch_loop. cbn [and_then].
    rewrite length_map. unfold mismatches. reflexivity.
  - intros [[x y] z] Hin. apply validation_region_in_shape in Hin.
    rewrite Hs in Hin. unfold getitem3. rewrite Hd. cbn [firstn nth].
    now rewrite (in_range_of_in_shape _ _ _ _ _ _ Hin).
Qed.

Lemma filter_nil_when_false {A} (f : A -> bool) (l : list A) :
  (forall a, In a l -> f a = false) -> filter f l = [].
Proof.
  induction l as [| a l IH]; intros H; [reflexivity |].
  cbn [filter]. rewrite (H a (or_introl eq_refl)).
  apply IH. intros b Hb. apply H. now right.
Qed.

Lemma tolerance_le (m N : Z) :
  (0 < N)%Z ->
  (inject_Z m / inject_Z N * 100 <= 5 # 100)%Q <-> (2000 * m <= N)%Z.
Proof.
  intros HN.
  assert (Hq : (0 < inject_Z N)%Q).
  { change 0%Q with (inject_Z 0). rewrite <- Zlt_Qlt. exact HN. }
  assert (Hnz : ~ (inject_Z N == 0)%Q).
  { intros H. rewrite H in Hq. discriminate Hq. }
  rewrite <- (Qmult_le_r _ _ (inject_Z N) Hq).
  setoid_replace (inject_Z m / inject_Z N * 100 * inject_Z N)%Q
    with (inject_Z m * 100)%Q by (field; exact Hnz).
  unfold Qle, Qmult, inject_Z; cbn [Qnum Qden]. split; lia.
Qed.

(** X15: what [validate_structure_mask] does with a mask that sets no
    voxel.  When the points array has at least three axes it raises
    [ZeroDivisionError], whatever the structure and the margin are: the
    dilated region is empty and the error rate divides by its size.  A
    points array of fewer than three axes is refused with [IndexError]
    before that, and for every mask. *)
Theorem validate_structure_mask_empty_mask
    (inside : VVector -> bool) (mask : ndarray float) (pts : tensor Q)
    (margin : positive) :
  (3 <= length (dims pts) ->
   (forall x y z, in_shape (shape mask) x y z = true ->
                  truthy (item mask x y z) = false) ->
   validate_structure_mask inside mask pts margin
   = inl (Raised ZeroDivisionError)) /\
  (length (dims pts) < 3 ->
   validate_structure_mask inside mask pts margin = inl IndexError).
Proof.
  unfold validate_structure_mask, getitem_where. split.
  - intros Hrank H.
    destruct (Nat.ltb_spec (length (dims pts)) 3) as [Hlt | _]; [lia |].
    fold (validation_region mask margin).
    rewrite validation_region_empty; [reflexivity |].
    intros x y z. unfold voxel.
    destruct (in_shape (shape mask) x y z) eqn:E; [| reflexivity].
    now rewrite (H x y z E).
  - intros Hrank.
    destruct (Nat.ltb_spec (length (dims pts)) 3) as [_ | Hge]; [| lia].
    reflexivity.
Qed.

Lemma validate_structure_mask_empty_mask_witness :
  validate_structure_mask in_half_space empty_mask (assembled_points cube_grid) 4
  = inl (Raised ZeroDivisionError) /\
  validate_structure_mask in_half_space half_mask (mk_tensor [3; 3] []) 4
  = inl IndexError.
Proof.
  split.
  - apply (validate_structure_mask_empty_mask in_half_space empty_mask
             (assembled_points cube_grid) 4).
    + simpl. lia.
    + intros x y z _. reflexivity.
  - apply (validate_structure_mask_empty_mask in_half_space half_mask
             (mk_tensor [3; 3] []) 4).
    simpl. lia.
Defined.

Lemma agreeing_mask_has_no_mismatch
    (inside : VVector -> bool) (mask : ndarray float) (pts : tensor Q)
    (margin : positive) (X Y Z : nat) :
  shape mask = (X, Y, Z) ->
  (forall x y z, x < X -> y < Y -> z < Z ->
     feqb (item mask x y z) (float_of_bool (inside (voxel_point pts x y z))) = true) ->
  mismatches inside mask pts margin = 0%Z.
Proof.
  intros Hs Hagree.
  unfold mismatches. rewrite filter_nil_when_false; [reflexivity |].
  intros [[x y] z] Ha. apply validation_region_in_shape in Ha.
  rewrite Hs in Ha. unfold in_shape in Ha.
  rewrite !andb_true_iff, !Nat.ltb_lt in Ha. destruct Ha as [[Hx' Hy'] Hz'].
  unfold mismatch. now rewrite Hagree.
Qed.

Lemma no_mismatch_is_tolerated (N : nat) :
  0 < N ->
  Qle_bool (inject_Z 0 / inject_Z (Z.of_nat N) * 100) (5 # 100) = true.
Proof. intros H. apply Qle_bool_iff. apply tolerance_le; lia. Qed.

(** X16: a mask that sets at least one voxel and agrees with the point
    test of the structure at every voxel of the grid passes
    [validate_structure_mask], for every margin. *)
Theorem validate_structure_mask_agreeing_mask
    (inside : VVector -> bool) (mask : ndarray float) (pts : tensor Q)
    (margin : positive) (X Y Z : nat) :
  shape mask = (X, Y, Z) ->
  dims pts = [X; Y; Z; 3] ->
  (forall x y z, x < X -> y < Y -> z < Z ->
     feqb (item mask x y z) (float_of_bool (inside (voxel_point pts x y z))) = true) ->
  (exists x y z, x < X /\ y < Y /\ z < Z /\ truthy (item mask x y z) = true) ->
  validate_structure_mask inside mask pts margin = inr tt.
Proof.
  intros Hs Hd Hagree (x0 & y0 & z0 & Hx & Hy & Hz & Ht).
  rewrite (validate_closed_form inside mask pts margin X Y Z Hs Hd).
  assert (Hin : In (x0, y0, z0) (validation_region mask margin)).
  { apply validation_region_holds_mask. unfold voxel.
    now rewrite Hs, (in_shape_lt _ _ _ _ _ _ Hx Hy Hz), Ht. }
  rewrite (agreeing_mask_has_no_mismatch inside mask pts margin X Y Z Hs Hagree).
  destruct (validation_region mask margin) as [| i l]; [contradiction |].
  cbn [length Nat.eqb].
  rewrite (no_mismatch_is_tolerated (S (length l))) by lia. reflexivity.
Qed.

Lemma validate_structure_mask_agreeing_mask_witness :
  validate_structure_mask in_half_space half_mask (assembled_points cube_grid) 4
  = inr tt.
Proof.
  apply (validate_structure_mask_agreeing_mask in_half_space half_mask
           (assembled_points cube_grid) 4 3 3 3).
  - reflexivity.
  - reflexivity.
  - intros x y z Hx Hy Hz.
    destruct x as [| [| [| x]]]; [ | | | lia];
      (destruct y as [| [| [| y]]]; [ | | | lia]);
      (destruct z as [| [| [| z]]]; [ | | | lia]); vm_compute; reflexivity.
  - exists 0, 0, 0. repeat split; try lia.
Defined.

(** X17: the tolerance of [validate_structure_mask].  With [N > 0] voxels
    in the dilated region of the mask and [m] of them at which the mask and
    the point test disagree, the validation passes when [2000 * m < N] and
    fails with "Masking error greater than 0.05 %" when [2000 * m > N]; a
    region of fewer than 2000 voxels tolerates no disagreement at all. *)
Theorem validate_structure_mask_tolerance
    (inside : VVector -> bool) (mask : ndarray float) (pts : tensor Q)
    (margin : positive) (X Y Z : nat) :
  shape mask = (X, Y, Z) ->
  dims pts = [X; Y; Z; 3] ->
  0 < length (validation_region mask margin) ->
  let N := Z.of_nat (length (validation_region mask margin)) in
  let m := mismatches inside mask pts margin in
  ((2000 * m < N)%Z ->
   validate_structure_mask inside mask pts margin = inr tt) /\
  ((N < 2000 * m)%Z ->
   validate_structure_mask inside mask pts margin =
     inl (Raised (AssertionError "Masking error greater than 0.05 %"))) /\
  ((N < 2000)%Z -> (0 < m)%Z ->
   validate_structure_mask inside mask pts margin =
     inl (Raised (AssertionError "Masking error greater than 0.05 %"))).
Proof.
  intros Hs Hd HN N m.
  rewrite (validate_closed_form inside mask pts margin X Y Z Hs Hd).
  destruct (Nat.eqb_spec (length (validation_region mask margin)) 0) as [E | _];
    [lia |].
  fold N. fold m.
  assert (HNpos : (0 < N)%Z) by (unfold N; lia).
  pose proof (tolerance_le m N HNpos) as Htol.
  destruct (Qle_bool (inject_Z m / inject_Z N * 100) (5 # 100)) eqn:Hq;
    cbn [check_msg].
  - apply Qle_bool_iff in Hq. apply Htol in Hq.
    split; [reflexivity |]. split; intros; lia.
  - assert (Hgt : (N < 2000 * m)%Z).
    { destruct (Z_lt_le_dec N (2000 * m)) as [H | H]; [exact H |].
      apply Htol in H. apply Qle_bool_iff in H. congruence. }
    split; [intros; lia |]. split; reflexivity.
Qed.

Lemma validate_structure_mask_tolerance_witness :
  let N := Z.of_nat (length (validation_region half_mask 4)) in
  let m := mismatches in_half_space half_mask (assembled_points cube_grid) 4 in
  ((2000 * m < N)%Z ->
   validate_structure_mask in_half_space half_mask (assembled_points cube_grid) 4
   = inr tt) /\
  ((N < 2000 * m)%Z ->
   validate_structure_mask in_half_space half_mask (assembled_points cube_grid) 4 =
     inl (Raised (AssertionError "Masking error greater than 0.05 %"))) /\
  ((N < 2000)%Z -> (0 < m)%Z ->
   validate_structure_mask in_half_space half_mask (assembled_points cube_grid) 4 =
     inl (Raised (AssertionError "Masking error greater than 0.05 %"))).
Proof.
  apply (validate_structure_mask_tolerance in_half_space half_mask
           (assembled_points cube_grid) 4 3 3 3).
  - reflexivity.
  - reflexivity.
  - vm_compute. lia.
Defined.
